(** * Chat-to-Visualization: timeline evaluator, scene normalisation,
      broadcast hub and submission handler

    A shallow embedding of the Express server ([broadcast], [groqStreamText],
    [groqVizJSON], the [POST /api/questions] handler) and of the evaluator of
    the React front end ([applyEasing], [drawVisualization]).

    JavaScript numbers are IEEE 754 binary64 values: they are modelled by Rocq's
    primitive floats, whose operations are the IEEE ones.  JavaScript objects
    used as property bags are finite maps from strings ([gmap string _]). *)

From Stdlib Require Import Floats ZArith.
From stdpp Require Import gmap strings list fin_maps pretty.

Local Open Scope string_scope.

(** ** JavaScript numbers *)

Module Num.

(** [ToBoolean] on a number: [0], [-0] and [NaN] are falsy. *)
Definition truthy (n : float) : bool :=
  negb (PrimFloat.is_zero n || PrimFloat.is_nan n).

(** [Math.PI], the binary64 value nearest to pi. *)
Definition PI : float := 0x1.921fb54442d18p+1%float.

(** The relational operators on numbers ([a >= b], [a <= b], [a > b],
    [a < b]): every comparison with [NaN] is false. *)
Definition ge (a b : float) : bool := (b <=? a)%float.
Definition le (a b : float) : bool := (a <=? b)%float.
Definition gt (a b : float) : bool := (b <? a)%float.
Definition lt (a b : float) : bool := (a <? b)%float.

End Num.

(** ** The front end: easing and timeline evaluation *)

Module Player.

(** A numeric field of a scene object as it arrives from JSON: a number,
    [null], or missing (which reads as [undefined]). *)
Inductive field : Type :=
| Undefined
| Null
| Number (n : float).

(** A value stored in a layer's property bag. *)
Inductive value : Type :=
| VUndefined
| VNull
| VBool (b : bool)
| VNum (n : float)
| VStr (s : string).

Definition field_value (f : field) : value :=
  match f with
  | Undefined => VUndefined
  | Null => VNull
  | Number n => VNum n
  end.

(** [ToNumber] on a field. *)
Definition to_number (f : field) : float :=
  match f with
  | Undefined => nan
  | Null => 0%float
  | Number n => n
  end.

Definition truthy (f : field) : bool :=
  match f with
  | Number n => Num.truthy n
  | _ => false
  end.

(** [a || b] *)
Definition or_else (a b : field) : field := if truthy a then a else b.

(** [a ?? b] *)
Definition nullish (a b : field) : field :=
  match a with
  | Number _ => a
  | _ => b
  end.

Record animation : Type := {
  property : string;
  from : field;
  to : field;
  start : field;
  end_ : field;
  easing : option string;
  centerX : field;
  centerY : field;
  radius : field
}.

Record layer : Type := {
  id : string;
  type : string;
  props : option (gmap string value);
  animations : option (list animation)
}.

Record visualization : Type := {
  duration : field;
  layers : option (list layer)
}.

(** One entry per call of [drawLayer]: the shape kind and the resolved
    properties handed to it. *)
Definition frame : Type := list (string * gmap string value).

(** The property names an animation may write: its own, and [x] and [y] for
    an orbit. *)
Definition targets (anim : animation) (k : string) : bool :=
  String.eqb (property anim) k
  || (String.eqb (property anim) "orbit" && (String.eqb k "x" || String.eqb k "y")).

Section Evaluator.

(** [Math.pow], [Math.cos] and [Math.sin] are platform functions whose results
    ECMAScript leaves implementation-approximated. *)
Variable Math_pow : float -> float -> float.
Variable Math_cos : float -> float.
Variable Math_sin : float -> float.

(** The [switch] compares [easing] with each case label in turn; a missing
    or unknown name takes the [default] branch. *)
Definition applyEasing (t : float) (name : option string) : float :=
  match name with
  | None => t
  | Some s =>
      if String.eqb s "ease-in" then (t * t)%float
      else if String.eqb s "ease-out" then (1 - Math_pow (1 - t) 2)%float
      else if String.eqb s "ease-in-out" then
        if Num.lt t 0.5%float then (2 * t * t)%float
        else (1 - Math_pow (-2 * t + 2) 2 / 2)%float
      else t
  end.

(** [const s = anim.start || 0, e = anim.end || visualization.duration] *)
Definition window_start (anim : animation) : float :=
  to_number (or_else (start anim) (Number 0%float)).

Definition window_end (dur : field) (anim : animation) : float :=
  to_number (or_else (end_ anim) dur).

(** [currentTime >= s && currentTime <= e] *)
Definition active (dur : field) (currentTime : float) (anim : animation) : bool :=
  Num.ge currentTime (window_start anim) && Num.le currentTime (window_end dur anim).

(** [currentTime > e] *)
Definition past_end (dur : field) (currentTime : float) (anim : animation) : bool :=
  Num.gt currentTime (window_end dur anim).

(** [const p = (currentTime - s) / (e - s)] *)
Definition interpolation (dur : field) (currentTime : float) (anim : animation) : float :=
  let s := window_start anim in
  let e := window_end dur anim in
  ((currentTime - s) / (e - s))%float.

Definition eased_at (dur : field) (currentTime : float) (anim : animation) : float :=
  applyEasing (interpolation dur currentTime anim) (easing anim).

Definition orbit_x (anim : animation) (eased : float) : float :=
  let angle := (2 * Num.PI * eased)%float in
  (to_number (or_else (centerX anim) (Number 0%float))
   + Math_cos angle * to_number (or_else (radius anim) (Number 50%float)))%float.

Definition orbit_y (anim : animation) (eased : float) : float :=
  let angle := (2 * Num.PI * eased)%float in
  (to_number (or_else (centerY anim) (Number 0%float))
   + Math_sin angle * to_number (or_else (radius anim) (Number 50%float)))%float.

(** [(anim.from ?? 0) + ((anim.to ?? 0) - (anim.from ?? 0)) * eased] *)
Definition tween (anim : animation) (eased : float) : float :=
  (to_number (nullish (from anim) (Number 0%float))
   + (to_number (nullish (to anim) (Number 0%float))
      - to_number (nullish (from anim) (Number 0%float))) * eased)%float.

(** The body of [layer.animations.forEach(anim => ...)]. *)
Definition apply_animation (dur : field) (currentTime : float)
    (bag : gmap string value) (anim : animation) : gmap string value :=
  if active dur currentTime anim then
    let eased := eased_at dur currentTime anim in
    if String.eqb (property anim) "orbit" then
      <["y" := VNum (orbit_y anim eased)]>
        (<["x" := VNum (orbit_x anim eased)]> bag)
    else
      <[property anim := VNum (tween anim eased)]> bag
  else if past_end dur currentTime anim && negb (String.eqb (property anim) "orbit") then
    <[property anim := field_value (to anim)]> bag
  else bag.

Definition apply_animations (dur : field) (currentTime : float)
    (bag : gmap string value) (anims : list animation) : gmap string value :=
  fold_left (apply_animation dur currentTime) anims bag.

(** The body of [visualization.layers.forEach(layer => ...)] up to the call
    of [drawLayer]: a copy of the base props, then the animations in declared
    order. *)
Definition resolve_layer (dur : field) (currentTime : float) (l : layer)
    : gmap string value :=
  let base := default ∅ (props l) in
  match animations l with
  | Some anims => apply_animations dur currentTime base anims
  | None => base
  end.

Definition drawVisualization (v : visualization) (progress : float) : frame :=
  match layers v with
  | None => []
  | Some ls =>
      let currentTime := (progress * to_number (duration v))%float in
      map (fun l => (type l, resolve_layer (duration v) currentTime l)) ls
  end.

End Evaluator.

End Player.

(** ** Scenes and platform functions used in the statements below *)

Module Scenes.

Import Player.

(** [start=1000, end=3000, from=0, to=100, easing=linear] on property [k]. *)
Definition ramp (k : string) : animation :=
  {| property := k; from := Number 0%float; to := Number 100%float;
     start := Number 1000%float; end_ := Number 3000%float;
     easing := Some "linear";
     centerX := Undefined; centerY := Undefined; radius := Undefined |}.

(** An orbit around [(350, 225)] of radius 100 over the window [[0, d]]. *)
Definition orbit (f t : field) (d : float) : animation :=
  {| property := "orbit"; from := f; to := t;
     start := Number 0%float; end_ := Number d;
     easing := Some "linear";
     centerX := Number 350%float; centerY := Number 225%float;
     radius := Number 100%float |}.

(** A visualization of one layer with one animation. *)
Definition single (d : float) (ty : string) (base : gmap string value)
    (anim : animation) : visualization :=
  {| duration := Number d;
     layers := Some [ {| id := "layer"; type := ty; props := Some base;
                         animations := Some [anim] |} ] |}.

(** [2 * Math.PI * 0.25] *)
Definition quarter_turn : float := 0x1.921fb54442d18p+0%float.

(** The binary64 value nearest to the cosine of [quarter_turn]. *)
Definition cos_quarter_turn : float := 0x1.1a62633145c07p-54%float.

(** [x] is [r] or one of its two neighbours. *)
Definition within_one_ulp (x r : float) : Prop :=
  x = next_down r \/ x = r \/ x = next_up r.

(** Sample platform functions: squaring for [Math.pow(_, 2)], and cosine and
    sine given by their correctly rounded values at the two angles used. *)
Definition pow_sample (x y : float) : float := (x * x)%float.

Definition cos_sample (x : float) : float :=
  if (x =? 0)%float then 1%float
  else if (x =? quarter_turn)%float then cos_quarter_turn
  else nan.

Definition sin_sample (x : float) : float :=
  if (x =? 0)%float then 0%float
  else if (x =? quarter_turn)%float then 1%float
  else nan.

End Scenes.

(** ** The server: store, broadcast hub, scene normalisation, submission *)

Module Server.

(** A value produced by [JSON.parse] (a request body, or the scene returned by
    the generation backend).  The members of an object are listed in order. *)
#[warnings="-register-all"]
Inductive json : Type :=
| JNull
| JBool (b : bool)
| JNumber (n : float)
| JString (s : string)
| JArray (items : list json)
| JObject (members : list (string * json)).

Fixpoint assoc (k : string) (ms : list (string * json)) : option json :=
  match ms with
  | [] => None
  | (k', j) :: rest => if String.eqb k k' then Some j else assoc k rest
  end.

(** [o.k] on a parsed value, for the keys the server reads ([userId],
    [question], [visualization], [id], [duration], [fps], [layers]): [None] is
    [undefined], which is also what these keys give on an array, a string, a
    number or a boolean. *)
Definition member (k : string) (o : json) : option json :=
  match o with
  | JObject ms => assoc k ms
  | _ => None
  end.

(** [ToBoolean] *)
Definition truthy (v : option json) : bool :=
  match v with
  | None | Some JNull => false
  | Some (JBool b) => b
  | Some (JNumber n) => Num.truthy n
  | Some (JString s) => negb (String.eqb s "")
  | Some (JArray _) | Some (JObject _) => true
  end.

Definition is_positive (j : json) : bool :=
  match j with
  | JNumber n => (0 <? n)%float
  | _ => false
  end.

Record visualization : Type := {
  vis_id : json;
  duration : json;
  fps : json;
  layers : list json
}.

Record question : Type := {
  question_id : string;
  userId : json;
  question_text : string;
  answerId : string;
  question_timestamp : string
}.

Record answer : Type := {
  answer_id : string;
  text : string;
  answer_visualization : visualization;
  answer_timestamp : string
}.

(** The response stream of one subscriber.  [res.write] may throw: [throws n]
    tells whether the [n]-th call does. *)
Record channel : Type := {
  written : list string;
  attempts : nat;
  throws : nat -> bool
}.

Record client : Type := {
  client_id : string;
  res : channel
}.

(** The module-level arrays, with the numbers of identifiers drawn and of
    clock readings taken so far. *)
Record world : Type := {
  questions : list question;
  answers : list answer;
  clients : list client;
  uuid_draws : nat;
  clock_reads : nat
}.

Inductive error : Type :=
| TypeError
| Error (message : string).

Inductive result (A : Type) : Type :=
| Ok (a : A)
| Throw (e : error).
Arguments Ok {A} a.
Arguments Throw {A} e.

(** Computations that read and update the store and may throw.  The store
    keeps what was written before an exception.  A handler is run from its
    first statement to its response: what other requests do to the store
    while it awaits the backend is not part of the model. *)
Definition M (A : Type) : Type := world -> result A * world.

Definition ret {A} (a : A) : M A := fun w => (Ok a, w).

Definition throw {A} (e : error) : M A := fun w => (Throw e, w).

Definition bind {A B} (m : M A) (k : A -> M B) : M B :=
  fun w =>
    match m w with
    | (Ok a, w') => k a w'
    | (Throw e, w') => (Throw e, w')
    end.

Definition try_catch {A} (body : M A) (handler : error -> M A) : M A :=
  fun w =>
    match body w with
    | (Ok a, w') => (Ok a, w')
    | (Throw e, w') => handler e w'
    end.

Notation "x <- m ;; k" := (bind m (fun x => k))
  (at level 100, m at next level, right associativity).
Notation "m ;;; k" := (bind m (fun _ => k))
  (at level 100, right associativity).

(** The payloads handed to [broadcast]. *)
Inductive payload : Type :=
| question_created (q : question)
| generation_started (id questionId : string)
| answer_partial (id textPartial questionId : string)
| answer_created (a : answer).

Definition event_name (p : payload) : string :=
  match p with
  | question_created _ => "question_created"
  | generation_started _ _ => "generation_started"
  | answer_partial _ _ _ => "answer_partial"
  | answer_created _ => "answer_created"
  end.

(** What the external calls of one submission do.  The text request yields
    the non-empty content deltas that [processBuffer] extracts from the
    response body, in order, and may fail before, between or after them.  The
    scene request fails (network error, a status that is not ok, a body that
    is not the expected JSON envelope), or yields message content on which
    [JSON.parse] returns [parsed] or throws ([None]). *)
Record stream_outcome : Type := {
  deltas : list string;
  stream_error : option error
}.

Inductive viz_outcome : Type :=
| VizThrows (e : error)
| VizContent (parsed : option json).

Record generation : Type := {
  text_stream : stream_outcome;
  viz : viz_outcome
}.

Inductive response : Type :=
| Status400 (error_message : string)
| Json200 (success : bool) (questionId answerId : string).

Definition newline : string := String (Ascii.ascii_of_nat 10) "".
Definition quote : string := String (Ascii.ascii_of_nat 34) "".

Section Handlers.

(** The environment: [uuidv4()], [Date.now()], [Date.prototype.toISOString],
    [JSON.stringify], [String.prototype.trim] and the string conversion of a
    value that is not a string. *)
Variable uuidv4_draw : nat -> string.
Variable Date_now_read : nat -> Z.
Variable toISOString : Z -> string.
Variable JSON_stringify : payload -> string.
Variable String_trim : string -> string.
Variable ToString : json -> string.

Definition uuidv4 : M string :=
  fun w =>
    (Ok (uuidv4_draw (uuid_draws w)),
     {| questions := questions w; answers := answers w; clients := clients w;
        uuid_draws := S (uuid_draws w); clock_reads := clock_reads w |}).

Definition Date_now : M Z :=
  fun w =>
    (Ok (Date_now_read (clock_reads w)),
     {| questions := questions w; answers := answers w; clients := clients w;
        uuid_draws := uuid_draws w; clock_reads := S (clock_reads w) |}).

(** [new Date().toISOString()] *)
Definition new_Date_toISOString : M string :=
  t <- Date_now ;; ret (toISOString t).

Definition push_question (q : question) : M unit :=
  fun w =>
    (Ok tt,
     {| questions := questions w ++ [q]; answers := answers w; clients := clients w;
        uuid_draws := uuid_draws w; clock_reads := clock_reads w |}).

Definition push_answer (a : answer) : M unit :=
  fun w =>
    (Ok tt,
     {| questions := questions w; answers := answers w ++ [a]; clients := clients w;
        uuid_draws := uuid_draws w; clock_reads := clock_reads w |}).

(** [res.write(chunk)]: the channel after the call, and whether it threw. *)
Definition write (c : channel) (chunk : string) : channel * bool :=
  if throws c (attempts c) then
    ({| written := written c; attempts := S (attempts c); throws := throws c |}, true)
  else
    ({| written := written c ++ [chunk]; attempts := S (attempts c); throws := throws c |},
     false).

Definition event_line (event : string) : string := "event: " +:+ event +:+ newline.

Definition data_line (data : payload) : string :=
  "data: " +:+ JSON_stringify data +:+ newline +:+ newline.

(** The callback of [clients.forEach]: two writes inside [try { } catch {}]. *)
Definition deliver (event : string) (data : payload) (c : client) : client :=
  let (r1, threw) := write (res c) (event_line event) in
  if threw then {| client_id := client_id c; res := r1 |}
  else {| client_id := client_id c; res := fst (write r1 (data_line data)) |}.

Definition broadcast (event : string) (data : payload) : M unit :=
  fun w =>
    (Ok tt,
     {| questions := questions w; answers := answers w;
        clients := map (deliver event data) (clients w);
        uuid_draws := uuid_draws w; clock_reads := clock_reads w |}).

(** [readGroqStream]: every content delta of the stream goes to [onDelta],
    which updates the accumulator it closes over. *)
Fixpoint readGroqStream {S : Type} (onDelta : S -> string -> M S) (acc : S)
    (ds : list string) : M S :=
  match ds with
  | [] => ret acc
  | d :: rest => acc' <- onDelta acc d ;; readGroqStream onDelta acc' rest
  end.

(** [groqStreamText]: the request fails, or fails part-way through the
    stream, or delivers all deltas. *)
Definition groqStreamText {S : Type} (o : stream_outcome)
    (onChunk : S -> string -> M S) (acc : S) : M S :=
  acc' <- readGroqStream onChunk acc (deltas o) ;;
  match stream_error o with
  | Some e => throw e
  | None => ret acc'
  end.

(** [`vis_${Date.now()}`] *)
Definition fresh_vis_id : M json :=
  t <- Date_now ;; ret (JString ("vis_" +:+ pretty t)).

(** [x || d] on a member of the scene. *)
Definition or_default (x : option json) (d : json) : json :=
  match x with
  | Some j => if truthy x then j else d
  | None => d
  end.

(** [x || d] where evaluating [d] has an effect: it is evaluated only when
    [x] is falsy. *)
Definition or_compute (x : option json) (d : M json) : M json :=
  match x with
  | Some j => if truthy x then ret j else d
  | None => d
  end.

(** The tail of [groqVizJSON]: [const v = parsed.visualization || {}] and the
    rebuilt [parsed.visualization].  Reading a property of [null] throws, and
    so does assigning one to a primitive in module (strict) code, after the
    right-hand side has been evaluated. *)
Definition normalize (parsed : json) : M visualization :=
  match parsed with
  | JNull => throw TypeError
  | _ =>
      let v := or_default (member "visualization" parsed) (JObject []) in
      i <- or_compute (member "id" v) fresh_vis_id ;;
      let rebuilt :=
        {| vis_id := i;
           duration := or_default (member "duration" v) (JNumber 8000%float);
           fps := or_default (member "fps" v) (JNumber 30%float);
           layers := match member "layers" v with
                     | Some (JArray items) => items
                     | _ => []
                     end |} in
      match parsed with
      | JObject _ | JArray _ => ret rebuilt
      | _ => throw TypeError
      end
  end.

(** The object substituted when [JSON.parse] throws. *)
Definition unparsable_default : M json :=
  i <- fresh_vis_id ;;
  ret (JObject [("text", JString "Visualization");
                ("visualization",
                 JObject [("id", i); ("duration", JNumber 8000%float);
                          ("fps", JNumber 30%float); ("layers", JArray [])])]).

(** [groqVizJSON], from the outcome of the request: the [visualization] of
    the object it returns. *)
Definition groqVizJSON (o : viz_outcome) : M visualization :=
  match o with
  | VizThrows e => throw e
  | VizContent (Some parsed) => normalize parsed
  | VizContent None => parsed <- unparsable_default ;; normalize parsed
  end.

(** [question.trim()] *)
Definition trim_call (q : option json) : M string :=
  match q with
  | Some (JString s) => ret (String_trim s)
  | _ => throw TypeError
  end.

(** [`${req.body.question}`] *)
Definition template (v : option json) : string :=
  match v with
  | None => "undefined"
  | Some (JString s) => s
  | Some j => ToString j
  end.

Definition fallback_text (q : option json) : string :=
  "Here is a brief overview of " +:+ quote +:+ template q +:+ quote +:+ ".".

(** The [catch] block of the submission handler. *)
Definition fallback_handler (body : json) : M response :=
  u <- uuidv4 ;;
  t <- Date_now ;;
  ts <- new_Date_toISOString ;;
  let fallback :=
    {| answer_id := "a_" +:+ u;
       text := fallback_text (member "question" body);
       answer_visualization :=
         {| vis_id := JString ("vis_" +:+ pretty t); duration := JNumber 7000%float;
            fps := JNumber 30%float; layers := [] |};
       answer_timestamp := ts |} in
  push_answer fallback ;;;
  broadcast "answer_created" (answer_created fallback) ;;;
  u' <- uuidv4 ;;
  ret (Json200 true ("q_" +:+ u') (answer_id fallback)).

(** The callback handed to [groqStreamText]: [text += delta], then a
    broadcast of the text accumulated so far. *)
Definition on_delta (answerId questionId : string) (text delta : string) : M string :=
  let text' := text +:+ delta in
  broadcast "answer_partial" (answer_partial answerId text' questionId) ;;;
  ret text'.

(** The [try] block of the submission handler. *)
Definition submission (body : json) (gen : generation) : M response :=
  let userId := member "userId" body in
  let question := member "question" body in
  if negb (truthy userId) || negb (truthy question) then
    ret (Status400 "Missing userId or question")
  else
    u1 <- uuidv4 ;;
    let questionId := "q_" +:+ u1 in
    u2 <- uuidv4 ;;
    let answerId := "a_" +:+ u2 in
    trimmed <- trim_call question ;;
    ts <- new_Date_toISOString ;;
    let qrec :=
      {| question_id := questionId; userId := default JNull userId;
         question_text := trimmed; answerId := answerId;
         question_timestamp := ts |} in
    push_question qrec ;;;
    broadcast "question_created" (question_created qrec) ;;;
    broadcast "generation_started" (generation_started answerId questionId) ;;;
    text <- groqStreamText (text_stream gen) (on_delta answerId questionId) "" ;;
    v <- groqVizJSON (viz gen) ;;
    ts' <- new_Date_toISOString ;;
    let ans :=
      {| answer_id := answerId; text := text; answer_visualization := v;
         answer_timestamp := ts' |} in
    push_answer ans ;;;
    broadcast "answer_created" (answer_created ans) ;;;
    ret (Json200 true questionId answerId).

(** [app.post('/api/questions', ...)] *)
Definition post_questions (body : json) (gen : generation) : M response :=
  try_catch (submission body gen) (fun _ => fallback_handler body).

End Handlers.

(** Whether the external calls of a submission end in an exception. *)
Definition stream_throws (o : stream_outcome) : bool :=
  match stream_error o with
  | Some _ => true
  | None => false
  end.

Definition viz_throws (o : viz_outcome) : bool :=
  match o with
  | VizThrows _ => true
  | VizContent (Some (JObject _)) | VizContent (Some (JArray _)) => false
  | VizContent (Some _) => true
  | VizContent None => false
  end.

Definition generation_throws (gen : generation) : bool :=
  stream_throws (text_stream gen) || viz_throws (viz gen).

(** The two worlds hold the same records and have drawn the same number of
    identifiers (subscribers' channels and the clock may differ). *)
Definition same_records (w w' : world) : Prop :=
  questions w' = questions w /\ answers w' = answers w
  /\ uuid_draws w' = uuid_draws w.

(** A submission passes the check of its two fields and has a question that
    is a string, so that the external calls are reached. *)
Definition accepted (body : json) (q : string) : Prop :=
  truthy (member "userId" body) = true
  /\ member "question" body = Some (JString q)
  /\ q <> "".

(** [needle] occurs in [hay]. *)
Definition occurs_in (needle hay : string) : Prop :=
  exists before after, hay = before +:+ needle +:+ after.

End Server.

(** ** A sample environment *)

Module Sample.

Import Server.

Definition uuid (n : nat) : string := pretty n.
Definition clock (n : nat) : Z := (1700000000000 + Z.of_nat n)%Z.
Definition iso (t : Z) : string := pretty t.
Definition stringify (p : payload) : string := event_name p.
Definition trim (s : string) : string := s.
Definition show (j : json) : string := "[object Object]".

Definition silent : channel :=
  {| written := []; attempts := 0; throws := fun _ => false |}.

Definition broken : channel :=
  {| written := []; attempts := 0; throws := fun _ => true |}.

(** A server with no records and two subscribers, the first of which throws
    on every write. *)
Definition quiet : world :=
  {| questions := []; answers := [];
     clients := [ {| client_id := "c1"; res := broken |};
                  {| client_id := "c2"; res := silent |} ];
     uuid_draws := 0; clock_reads := 0 |}.

Definition photosynthesis : json :=
  JObject [("userId", JString "u1"); ("question", JString "What is photosynthesis?")].

(** The text request fails before any delta arrives. *)
Definition upstream_down : generation :=
  {| text_stream := {| deltas := []; stream_error := Some (Error "Groq stream 503") |};
     viz := VizContent None |}.

(** A scene whose duration is negative. *)
Definition negative_duration : json :=
  JObject [("text", JString "caption");
           ("visualization", JObject [("duration", JNumber (-5)%float)])].

End Sample.

(** ** The server: history routes, event stream subscription *)

Module Routes.

Import Server.

Inductive answer_response : Type :=
| AnswerNotFound
| AnswerFound (data : answer).

(** [app.get('/api/answers/:id')]: the first stored answer with that id, or
    404. *)
Definition get_answer (id : string) (w : world) : answer_response :=
  match find (fun a => String.eqb (answer_id a) id) (answers w) with
  | Some a => AnswerFound a
  | None => AnswerNotFound
  end.

Definition with_clients (cs : list client) (w : world) : world :=
  {| questions := questions w; answers := answers w; clients := cs;
     uuid_draws := uuid_draws w; clock_reads := clock_reads w |}.

(** [clients.findIndex(c => c.id === id)] followed by [clients.splice(i, 1)]
    when an index was found. *)
Fixpoint remove_first (id : string) (cs : list client) : list client :=
  match cs with
  | [] => []
  | c :: rest =>
      if String.eqb (client_id c) id then rest else c :: remove_first id rest
  end.

(** The [close] listener of a subscription. *)
Definition unsubscribe (id : string) : M unit :=
  fun w => (Ok tt, with_clients (remove_first id (clients w)) w).

Section Subscription.

Variable uuidv4_draw : nat -> string.
Variable Date_now_read : nat -> Z.

(** [JSON.stringify({ clientId: id, ts: Date.now() })] *)
Variable stringify_connected : string -> Z -> string.

Definition connected_line (id : string) (ts : Z) : string :=
  "data: " +:+ stringify_connected id ts +:+ newline +:+ newline.

Definition push_client (c : client) : M unit :=
  fun w => (Ok tt, with_clients (clients w ++ [c]) w).

(** [app.get('/api/stream')] up to the two writes, on the response stream
    [r] of the request; it returns the client id.  The stream is one object
    shared by the handler and the entry pushed onto [clients]: the entry is
    given here with the state the stream has once the writes are over.  A
    write that throws ends the handler with that exception, after the
    push. *)
Definition subscribe (r : channel) : M string :=
  id <- uuidv4 uuidv4_draw ;;
  let (r1, threw1) := write r (event_line "connected") in
  if threw1 then
    push_client {| client_id := id; res := r1 |} ;;;
    throw (Error "write")
  else
    t <- Date_now Date_now_read ;;
    let (r2, threw2) := write r1 (connected_line id t) in
    push_client {| client_id := id; res := r2 |} ;;;
    if threw2 then throw (Error "write") else ret id.

End Subscription.

(** The [answer_partial] payloads of a stream of deltas, from the text
    accumulated so far. *)
Fixpoint partials (answerId questionId : string) (text : string) (ds : list string)
    : list payload :=
  match ds with
  | [] => []
  | d :: rest =>
      answer_partial answerId (text +:+ d) questionId
      :: partials answerId questionId (text +:+ d) rest
  end.

Section Trace.

Variable uuidv4_draw : nat -> string.
Variable Date_now_read : nat -> Z.
Variable toISOString : Z -> string.
Variable JSON_stringify : payload -> string.
Variable String_trim : string -> string.
Variable ToString : json -> string.

(** The channel of a client after the broadcasts of [ps], in order. *)
Definition deliver_all (ps : list payload) (c : client) : client :=
  fold_left (fun c p => deliver JSON_stringify (event_name p) p c) ps c.

(** The two lines a broadcast writes. *)
Definition lines (p : payload) : list string :=
  [event_line (event_name p); data_line JSON_stringify p].

(** The record [qrec] of an accepted submission with question [q], from the
    world in which the request arrives. *)
Definition stored_question (body : json) (q : string) (w : world) : question :=
  {| question_id := "q_" +:+ uuidv4_draw (uuid_draws w);
     userId := default JNull (member "userId" body);
     question_text := String_trim q;
     answerId := "a_" +:+ uuidv4_draw (S (uuid_draws w));
     question_timestamp := toISOString (Date_now_read (clock_reads w)) |}.

(** The broadcasts of an accepted submission up to the end of the text
    stream. *)
Definition opening (body : json) (q : string) (gen : generation) (w : world)
    : list payload :=
  let qrec := stored_question body q w in
  ([question_created qrec; generation_started (answerId qrec) (question_id qrec)]
   ++ partials (answerId qrec) (question_id qrec) EmptyString
        (deltas (text_stream gen)))%list.

(** The record [fallback] of the [catch] block, from the world in which the
    block starts. *)
Definition fallback_of (body : json) (w : world) : answer :=
  {| answer_id := "a_" +:+ uuidv4_draw (uuid_draws w);
     text := fallback_text ToString (member "question" body);
     answer_visualization :=
       {| vis_id := JString ("vis_" +:+ pretty (Date_now_read (clock_reads w)));
          duration := JNumber 7000%float; fps := JNumber 30%float; layers := [] |};
     answer_timestamp := toISOString (Date_now_read (S (clock_reads w))) |}.

(** A world after [k] further identifiers were drawn. *)
Definition after_draws (k : nat) (w : world) : world :=
  {| questions := questions w; answers := answers w; clients := clients w;
     uuid_draws := k + uuid_draws w; clock_reads := clock_reads w |}.

End Trace.

(** The deltas of a stream, concatenated. *)
Definition joined (ds : list string) : string := fold_right String.append "" ds.

End Routes.

(** ** The server: reading the streamed response body *)

Module Stream.

Import Server.

Definition is_newline (c : Ascii.ascii) : bool := Ascii.eqb c (Ascii.ascii_of_nat 10).

(** Puts [c] in front of the text before the first separator. *)
Definition cons_char (c : Ascii.ascii) (r : list string * string) : list string * string :=
  match r with
  | ([], rest) => ([], String c rest)
  | (p :: ps, rest) => (String c p :: ps, rest)
  end.

(** [const parts = buffer.split('\n\n'); buffer = parts.pop() || ''], as the
    pair of [parts] after the [pop] and the new [buffer]: the separators are
    found from left to right and do not overlap. *)
Fixpoint split_events (s : string) : list string * string :=
  match s with
  | EmptyString => ([], EmptyString)
  | String c rest =>
      match rest with
      | String c' rest' =>
          if is_newline c && is_newline c' then
            let (ps, r) := split_events rest' in (EmptyString :: ps, r)
          else cons_char c (split_events rest)
      | EmptyString => cons_char c (split_events rest)
      end
  end.

Section Reader.

(** [JSON.parse] ([None] when it throws) and the white space class of [\s]
    and of [String.prototype.trim]. *)
Variable JSON_parse : string -> option json.
Variable is_space : Ascii.ascii -> bool.

Fixpoint trim_start (s : string) : string :=
  match s with
  | String c rest => if is_space c then trim_start rest else s
  | EmptyString => EmptyString
  end.

Definition trim (s : string) : string :=
  String.rev (trim_start (String.rev (trim_start s))).

(** [part.replace(/^data:\s*/, '')] on a part that starts with [data:]. *)
Definition replace_data_prefix (part : string) : string :=
  trim_start (String.substring 5 (String.length part - 5) part).

(** [v?.[0]] on a value that is not nullish. *)
Definition index0 (v : json) : option json :=
  match v with
  | JArray (x :: _) => Some x
  | JObject ms => assoc "0" ms
  | JString (String c _) => Some (JString (String c EmptyString))
  | _ => None
  end.

(** [v?.f]: [undefined] when [v] is [undefined] or [null]. *)
Definition optional (v : option json) (f : json -> option json) : option json :=
  match v with
  | None | Some JNull => None
  | Some j => f j
  end.

(** [obj.choices?.[0]?.delta?.content || ''], when it is truthy.  Reading
    [choices] of [null] throws, inside the [try]. *)
Definition delta_of (obj : json) : option json :=
  match obj with
  | JNull => None
  | _ =>
      let content :=
        optional (optional (optional (member "choices" obj) index0) (member "delta"))
          (member "content") in
      if truthy content then content else None
  end.

(** The body of the loop over [parts]: the delta handed to [onDelta], if
    any. *)
Definition part_delta (part : string) : option json :=
  if negb (String.prefix "data:" part) then None
  else
    let text := trim (replace_data_prefix part) in
    if String.eqb text "[DONE]" then None
    else
      match JSON_parse text with
      | Some obj => delta_of obj
      | None => None
      end.

(** [processBuffer]: the deltas handed to [onDelta], in order, and the
    buffer it returns. *)
Definition processBuffer (buffer : string) : list json * string :=
  let (parts, rest) := split_events buffer in
  (omap part_delta parts, rest).

(** The loop of [readGroqStream] over the chunks of the body, each already
    decoded to a string
    ([buffer += chunk; buffer = processBuffer(buffer, onDelta)]): all deltas
    handed to [onDelta], and the buffer left when the body ends. *)
Fixpoint read_chunks (buffer : string) (chunks : list string) : list json * string :=
  match chunks with
  | [] => ([], buffer)
  | chunk :: rest =>
      let (ds, buffer') := processBuffer (buffer +:+ chunk) in
      let (ds', final) := read_chunks buffer' rest in
      ((ds ++ ds')%list, final)
  end.

End Reader.

End Stream.

(** ** The front end: state kept from the event stream *)

Module Client.

Import Server.

(** What the front end keeps under an answer id: the record of an
    [answer_created] event, or the object built from an [answer_partial]
    event, which has no timestamp and carries over the visualization the
    entry had before, if any. *)
Record entry : Type := {
  entry_id : string;
  entry_text : string;
  entry_visualization : option visualization;
  entry_timestamp : option string
}.

Definition of_answer (a : answer) : entry :=
  {| entry_id := answer_id a; entry_text := text a;
     entry_visualization := Some (answer_visualization a);
     entry_timestamp := Some (answer_timestamp a) |}.

(** The pieces of React state the event listeners update. *)
Record state : Type := {
  questions : list question;
  answers : gmap string entry;
  selectedAnswer : option entry;
  isPlaying : bool;
  isGenerating : bool;
  hasPartial : bool
}.

(** [prev => (prev.some(x => x.id === q.id) ? prev : [...prev, q])] *)
Definition add_question (q : question) (prev : list question) : list question :=
  if existsb (fun x => String.eqb (question_id x) (question_id q)) prev then prev
  else prev ++ [q].

(** [{ id: p.id, text: p.textPartial, visualization: prev[p.id]?.visualization }] *)
Definition partial_entry (id textPartial : string) (prev : gmap string entry) : entry :=
  {| entry_id := id; entry_text := textPartial;
     entry_visualization := prev !! id ≫= entry_visualization;
     entry_timestamp := None |}.

(** [prev => (prev?.id === p.id ? { ...prev, text: p.textPartial } : prev)] *)
Definition retext (id textPartial : string) (prev : option entry) : option entry :=
  match prev with
  | Some e =>
      if String.eqb (entry_id e) id then
        Some {| entry_id := entry_id e; entry_text := textPartial;
                entry_visualization := entry_visualization e;
                entry_timestamp := entry_timestamp e |}
      else prev
  | None => None
  end.

(** The listeners registered with [es.addEventListener], one per event.
    Each receives the payload the server broadcast: [JSON.parse] of the data
    line gives back the record that [JSON.stringify] was applied to. *)
Definition handle (s : state) (p : payload) : state :=
  match p with
  | question_created q =>
      {| questions := add_question q (questions s); answers := answers s;
         selectedAnswer := selectedAnswer s; isPlaying := isPlaying s;
         isGenerating := isGenerating s; hasPartial := hasPartial s |}
  | generation_started _ _ =>
      {| questions := questions s; answers := answers s;
         selectedAnswer := selectedAnswer s; isPlaying := isPlaying s;
         isGenerating := true; hasPartial := false |}
  | answer_partial id textPartial _ =>
      {| questions := questions s;
         answers := <[id := partial_entry id textPartial (answers s)]> (answers s);
         selectedAnswer := retext id textPartial (selectedAnswer s);
         isPlaying := isPlaying s;
         isGenerating := isGenerating s; hasPartial := true |}
  | answer_created a =>
      {| questions := questions s;
         answers := <[answer_id a := of_answer a]> (answers s);
         selectedAnswer := Some (of_answer a); isPlaying := true;
         isGenerating := false; hasPartial := hasPartial s |}
  end.

(** The state after a sequence of events, in the order they arrive. *)
Definition handle_all (s : state) (ps : list payload) : state := fold_left handle ps s.

End Client.

(** ** The front end: drawing a resolved layer *)

Module Renderer.

Import Player.

(** The calls made on the 2-D drawing context, in order. *)
Inductive command : Type :=
| save
| restore
| beginPath
| closePath
| fill
| stroke
| arc (x y : value) (radius startAngle endAngle : float)
| fillRect (x y w h : value)
| strokeRect (x y w h : value)
| moveTo (x y : value)
| lineTo (x y : value)
| fillText (text x y : value)
| set_fillStyle (v : value)
| set_strokeStyle (v : value)
| set_lineWidth (v : value)
| set_font (v : value)
| set_textAlign (v : value)
| set_textBaseline (v : value)
| set_globalAlpha (a : float).

(** [props.k] *)
Definition get (bag : gmap string value) (k : string) : value :=
  default VUndefined (bag !! k).

(** [ToBoolean] *)
Definition truthy (v : value) : bool :=
  match v with
  | VUndefined | VNull => false
  | VBool b => b
  | VNum n => Num.truthy n
  | VStr s => negb (String.eqb s "")
  end.

(** [a || b] *)
Definition or_else (a b : value) : value := if truthy a then a else b.

Definition is_pos_zero (x : float) : bool :=
  match classify x with
  | PZero => true
  | _ => false
  end.

Definition is_neg_zero (x : float) : bool :=
  match classify x with
  | NZero => true
  | _ => false
  end.

(** [Math.min(a, b)] and [Math.max(a, b)] on numbers: [NaN] when an argument
    is [NaN], and [-0] counts as smaller than [+0]. *)
Definition Math_min (a b : float) : float :=
  if is_nan a || is_nan b then nan
  else if (b <? a)%float || (is_neg_zero b && is_pos_zero a) then b
  else a.

Definition Math_max (a b : float) : float :=
  if is_nan a || is_nan b then nan
  else if (a <? b)%float || (is_pos_zero b && is_neg_zero a) then b
  else a.

(** A call other than [save] and [restore]. *)
Definition inner (c : command) : Prop := c <> save /\ c <> restore.

(** The shape kinds [drawLayer] knows. *)
Definition known (type : string) : bool :=
  String.eqb type "circle" || String.eqb type "rectangle" || String.eqb type "arrow"
  || String.eqb type "text" || String.eqb type "line".

Section Drawing.

(** The platform: the conversions between strings and numbers, and
    [Math.atan2], [Math.cos], [Math.sin]. *)
Variable StringToNumber : string -> float.
Variable NumberToString : float -> string.
Variable Math_atan2 : float -> float -> float.
Variable Math_cos : float -> float.
Variable Math_sin : float -> float.

(** [ToNumber] *)
Definition to_number (v : value) : float :=
  match v with
  | VUndefined => nan
  | VNull => 0%float
  | VBool true => 1%float
  | VBool false => 0%float
  | VNum n => n
  | VStr s => StringToNumber s
  end.

(** [ToString] *)
Definition to_string (v : value) : string :=
  match v with
  | VUndefined => "undefined"
  | VNull => "null"
  | VBool true => "true"
  | VBool false => "false"
  | VNum n => NumberToString n
  | VStr s => s
  end.

(** [a + b]: concatenation when an operand is a string. *)
Definition add (a b : value) : value :=
  match a, b with
  | VStr s, _ => VStr (s +:+ to_string b)
  | _, VStr s => VStr (to_string a +:+ s)
  | _, _ => VNum (to_number a + to_number b)%float
  end.

(** [a - b] *)
Definition sub (a b : value) : float := (to_number a - to_number b)%float.

Definition drawArrow (fromX fromY toX toY color : value) : list command :=
  let headLength := 15%float in
  let angle := Math_atan2 (sub toY fromY) (sub toX fromX) in
  [ set_strokeStyle color; set_fillStyle color; set_lineWidth (VNum 2%float);
    beginPath; moveTo fromX fromY; lineTo toX toY; stroke;
    beginPath;
    moveTo toX toY;
    lineTo (VNum (to_number toX - headLength * Math_cos (angle - Num.PI / 6))%float)
           (VNum (to_number toY - headLength * Math_sin (angle - Num.PI / 6))%float);
    lineTo (VNum (to_number toX - headLength * Math_cos (angle + Num.PI / 6))%float)
           (VNum (to_number toY - headLength * Math_sin (angle + Num.PI / 6))%float);
    closePath; fill ].

(** [if (props.fill && props.fill !== 'transparent')] *)
Definition paints (bag : gmap string value) : bool :=
  truthy (get bag "fill")
  && negb (match get bag "fill" with
           | VStr s => String.eqb s "transparent"
           | _ => false
           end).

Definition stroke_setup (bag : gmap string value) : list command :=
  [ set_strokeStyle (get bag "stroke");
    set_lineWidth (or_else (get bag "strokeWidth") (VNum 1%float)) ].

(** The calls inside the [try] of [drawLayer], by shape kind. *)
Definition shape (type : string) (bag : gmap string value) : list command :=
  let x := or_else (get bag "x") (VNum 0%float) in
  let y := or_else (get bag "y") (VNum 0%float) in
  if String.eqb type "circle" then
    [ beginPath;
      arc x y (abs (to_number (or_else (get bag "r") (VNum 10%float))))
        0%float (2 * Num.PI)%float ]
    ++ (if paints bag then [set_fillStyle (get bag "fill"); fill] else [])
    ++ (if truthy (get bag "stroke") then stroke_setup bag ++ [stroke] else [])
  else if String.eqb type "rectangle" then
    let w := or_else (get bag "width") (VNum 50%float) in
    let h := or_else (get bag "height") (VNum 30%float) in
    (if paints bag then [set_fillStyle (get bag "fill"); fillRect x y w h] else [])
    ++ (if truthy (get bag "stroke") then stroke_setup bag ++ [strokeRect x y w h]
        else [])
  else if String.eqb type "arrow" then
    drawArrow x y
      (add x (or_else (get bag "dx") (VNum 50%float)))
      (add y (or_else (get bag "dy") (VNum 0%float)))
      (or_else (get bag "color") (VStr "#000"))
  else if String.eqb type "text" then
    [ set_font (or_else (get bag "font") (VStr "16px Arial"));
      set_fillStyle (or_else (or_else (get bag "color") (get bag "fill")) (VStr "#000"));
      set_textAlign (or_else (get bag "textAlign") (VStr "left"));
      set_textBaseline (or_else (get bag "textBaseline") (VStr "top"));
      fillText (or_else (get bag "text") (VStr "")) x y ]
  else if String.eqb type "line" then
    [ beginPath;
      moveTo (or_else (get bag "x1") (VNum 0%float)) (or_else (get bag "y1") (VNum 0%float));
      lineTo (or_else (get bag "x2") (VNum 100%float))
             (or_else (get bag "y2") (VNum 100%float));
      set_strokeStyle (or_else (get bag "color") (VStr "#000"));
      set_lineWidth (or_else (get bag "lineWidth") (VNum 2%float));
      stroke ]
  else [].

(** [drawLayer]: none of the calls of [shape] throws (the radius handed to
    [arc] is an absolute value), so the [catch] is not entered. *)
Definition drawLayer (type : string) (bag : gmap string value) : list command :=
  [save] ++ shape type bag ++ [restore].

(** The end of the callback of [visualization.layers.forEach]: the opacity,
    when the resolved props have one, the layer, and the reset. *)
Definition draw_resolved (type : string) (bag : gmap string value) : list command :=
  (match get bag "opacity" with
   | VUndefined => []
   | v => [set_globalAlpha (Math_max 0%float (Math_min 1%float (to_number v)))]
   end)
  ++ drawLayer type bag
  ++ [set_globalAlpha 1%float].

End Drawing.

End Renderer.

(** ** Sample inputs for the statements on streams, routes and drawing *)

Module Demo.

Import Server.

(** Stands for [JSON.parse] on bodies whose events carry the content given
    after [data:]. *)
Definition parse (s : string) : option json :=
  Some (JObject [("choices", JArray [JObject [("delta", JObject [("content", JString s)])]])]).

(** A body of two events, cut inside the first event and inside the last
    separator. *)
Definition chunks : list string :=
  [ "data: Pla";
    "nts" +:+ newline +:+ newline +:+ "data: [DONE]" +:+ newline;
    newline ].

(** A generation that streams two deltas and whose scene cannot be parsed. *)
Definition streamed : generation :=
  {| text_stream := {| deltas := ["Plants "; "make sugar."]; stream_error := None |};
     viz := VizContent None |}.


Definition stringify_connected (id : string) (ts : Z) : string :=
  id +:+ " " +:+ pretty ts.

(** A layer with one animation, in a visualization without duration. *)
Definition undated : Player.visualization :=
  {| Player.duration := Player.Undefined;
     Player.layers :=
       Some [ {| Player.id := "sun"; Player.type := "circle";
                 Player.props := Some {[ "x" := Player.VNum 40%float;
                                         "fill" := Player.VStr "gold" ]};
                 Player.animations := Some [Scenes.ramp "x"] |} ] |}.

(** An animation whose window ends before it starts. *)
Definition inverted : Player.animation :=
  {| Player.property := "x"; Player.from := Player.Number 0%float;
     Player.to := Player.Number 100%float;
     Player.start := Player.Number 3000%float; Player.end_ := Player.Number 1000%float;
     Player.easing := None;
     Player.centerX := Player.Undefined; Player.centerY := Player.Undefined;
     Player.radius := Player.Undefined |}.

Definition to_number_sample (s : string) : float := nan.
Definition to_string_sample (n : float) : string := "0".
Definition atan2_sample (y x : float) : float := 0%float.

End Demo.

(** ** Facts about binary64 arithmetic *)

Module FloatFacts.

Lemma SFcompare_Lt_Gt (x y : spec_float) :
  SFcompare x y = Some Lt -> SFcompare y x = Some Gt.
Proof.
  destruct x as [sx|sx| |sx mx ex], y as [sy|sy| |sy my ey]; simpl;
    try destruct sx; try destruct sy; try congruence;
    rewrite (Z.compare_antisym ex ey);
    change (PosDef.Pos.compare_cont Eq my mx)
      with (Pos.compare_cont (CompOpp Eq) my mx);
    rewrite <- (Pos.compare_cont_antisym mx my Eq);
    destruct (ex ?= ey)%Z; simpl; try congruence;
    destruct (PosDef.Pos.compare_cont Eq mx my); simpl; congruence.
Qed.

(** [a > b] excludes [a <= b]. *)
Lemma gt_not_le (a b : float) : Num.gt a b = true -> Num.le a b = false.
Proof.
  unfold Num.gt, Num.le. rewrite ltb_spec, leb_spec. unfold SFltb, SFleb.
  destruct (SFcompare (Prim2SF b) (Prim2SF a)) as [[]|] eqn:E; try discriminate.
  intros _. now rewrite (SFcompare_Lt_Gt _ _ E).
Qed.

Lemma nan_intro (x : float) : Prim2SF x = S754_nan -> x = nan.
Proof. intros H. apply Prim2SF_inj. now rewrite H. Qed.

Lemma SFsub_diag (x : spec_float) :
  SF64sub x x = S754_nan \/ exists s, SF64sub x x = S754_zero s.
Proof.
  destruct x as [s|s| |s m e]; simpl.
  - right. destruct s; eauto.
  - left. now destruct s.
  - now left.
  - right. exists false. unfold SF64sub, SFsub. now rewrite Z.sub_diag.
Qed.

(** [0 / 0], and so [(x - x) / (x - x)] for every [x], is [NaN]. *)
Lemma sub_diag_div_nan (x : float) : ((x - x) / (x - x))%float = nan.
Proof.
  apply nan_intro. rewrite div_spec, sub_spec.
  destruct (SFsub_diag (Prim2SF x)) as [-> | [s ->]]; reflexivity.
Qed.

Lemma mul_nan_r (x : float) : (x * nan)%float = nan.
Proof.
  apply nan_intro. rewrite mul_spec. change (Prim2SF nan) with S754_nan.
  now destruct (Prim2SF x).
Qed.

Lemma add_nan_r (x : float) : (x + nan)%float = nan.
Proof.
  apply nan_intro. rewrite add_spec. change (Prim2SF nan) with S754_nan.
  now destruct (Prim2SF x).
Qed.

Lemma add_nan_l (x : float) : (nan + x)%float = nan.
Proof. apply nan_intro. now rewrite add_spec. Qed.

Lemma sub_nan_r (x : float) : (x - nan)%float = nan.
Proof.
  apply nan_intro. rewrite sub_spec. change (Prim2SF nan) with S754_nan.
  now destruct (Prim2SF x).
Qed.

Lemma lt_nan_l (x : float) : Num.lt nan x = false.
Proof. unfold Num.lt. now rewrite ltb_spec. Qed.

End FloatFacts.

(** ** The timeline evaluator *)

Section PlayerFacts.

Import Player.

Variable Math_pow : float -> float -> float.
Variable Math_cos : float -> float.
Variable Math_sin : float -> float.

Abbreviation apply_animation := (Player.apply_animation Math_pow Math_cos Math_sin).
Abbreviation apply_animations := (Player.apply_animations Math_pow Math_cos Math_sin).
Abbreviation eased_at := (Player.eased_at Math_pow).

Lemma past_end_not_active dur ct anim :
  past_end dur ct anim = true -> active dur ct anim = false.
Proof.
  unfold past_end, active. intros H.
  rewrite (FloatFacts.gt_not_le _ _ H). apply andb_false_r.
Qed.

Lemma apply_animations_snoc dur ct (bag : gmap string value) pre anim :
  apply_animations dur ct bag (pre ++ [anim])
  = apply_animation dur ct (apply_animations dur ct bag pre) anim.
Proof. unfold Player.apply_animations. now rewrite fold_left_app. Qed.

Lemma apply_animations_app dur ct (bag : gmap string value) l1 l2 :
  apply_animations dur ct bag (l1 ++ l2)
  = apply_animations dur ct (apply_animations dur ct bag l1) l2.
Proof. unfold Player.apply_animations. now rewrite fold_left_app. Qed.

Lemma apply_animation_active_tween dur ct (bag : gmap string value) anim :
  active dur ct anim = true -> property anim <> "orbit" ->
  apply_animation dur ct bag anim
  = <[property anim := VNum (tween anim (eased_at dur ct anim))]> bag.
Proof.
  intros Ha Hk. unfold Player.apply_animation. rewrite Ha.
  apply String.eqb_neq in Hk. now rewrite Hk.
Qed.

Lemma apply_animation_active_orbit dur ct (bag : gmap string value) anim :
  active dur ct anim = true -> property anim = "orbit" ->
  apply_animation dur ct bag anim
  = <["y" := VNum (orbit_y Math_sin anim (eased_at dur ct anim))]>
      (<["x" := VNum (orbit_x Math_cos anim (eased_at dur ct anim))]> bag).
Proof.
  intros Ha Hk. unfold Player.apply_animation. rewrite Ha, Hk. reflexivity.
Qed.

Lemma apply_animation_past_end_freeze dur ct (bag : gmap string value) anim :
  past_end dur ct anim = true -> property anim <> "orbit" ->
  apply_animation dur ct bag anim = <[property anim := field_value (to anim)]> bag.
Proof.
  intros Hp Hk. unfold Player.apply_animation.
  rewrite (past_end_not_active _ _ _ Hp), Hp.
  apply String.eqb_neq in Hk. now rewrite Hk.
Qed.

Lemma apply_animation_past_end_orbit dur ct (bag : gmap string value) anim :
  past_end dur ct anim = true -> property anim = "orbit" ->
  apply_animation dur ct bag anim = bag.
Proof.
  intros Hp Hk. unfold Player.apply_animation.
  rewrite (past_end_not_active _ _ _ Hp), Hp, Hk. reflexivity.
Qed.

(** An animation that does not target [k] leaves [k] as it was. *)
Lemma apply_animation_other dur ct (bag : gmap string value) anim k :
  targets anim k = false ->
  apply_animation dur ct bag anim !! k = bag !! k.
Proof.
  unfold targets. intros H.
  apply orb_false_iff in H as [Hk Ho]. apply String.eqb_neq in Hk.
  unfold Player.apply_animation.
  destruct (active dur ct anim).
  - destruct (String.eqb (property anim) "orbit") eqn:E.
    + simpl in Ho. apply orb_false_iff in Ho as [Hx Hy].
      apply String.eqb_neq in Hx, Hy.
      rewrite !lookup_insert_ne by congruence. reflexivity.
    + now rewrite lookup_insert_ne.
  - destruct (past_end dur ct anim && negb (String.eqb (property anim) "orbit")).
    + now rewrite lookup_insert_ne.
    + reflexivity.
Qed.

Lemma apply_animations_other dur ct anims k :
  forallb (fun a => negb (targets a k)) anims = true ->
  forall bag : gmap string value, apply_animations dur ct bag anims !! k = bag !! k.
Proof.
  induction anims as [|a anims IH]; intros H bag; [reflexivity|].
  simpl in H. apply andb_true_iff in H as [Ha Hr].
  apply negb_true_iff in Ha.
  change (apply_animations dur ct (apply_animation dur ct bag a) anims !! k = bag !! k).
  rewrite (IH Hr). now apply apply_animation_other.
Qed.

Lemma applyEasing_nan name :
  (forall y, Math_pow nan y = nan) -> applyEasing Math_pow nan name = nan.
Proof.
  intros Hpow. destruct name as [s|]; [|reflexivity]. unfold applyEasing.
  destruct (String.eqb s "ease-in"); [reflexivity|].
  destruct (String.eqb s "ease-out").
  { rewrite FloatFacts.sub_nan_r, Hpow. reflexivity. }
  destruct (String.eqb s "ease-in-out"); [|reflexivity].
  rewrite FloatFacts.lt_nan_l, FloatFacts.mul_nan_r, FloatFacts.add_nan_l, Hpow.
  reflexivity.
Qed.

Lemma tween_nan anim : tween anim nan = nan.
Proof. unfold tween. now rewrite FloatFacts.mul_nan_r, FloatFacts.add_nan_r. Qed.

(** C3 (the evaluator at a zero-width window).  When an animation's window
    has [end == start] and [currentTime] is that instant, the evaluator
    computes the interpolation parameter as [0 / 0]: it is [NaN], not 1, and a
    non-orbit property is resolved to [NaN], not to [to]. *)
Theorem zero_width_window_resolves_nan dur ct (bag : gmap string value) anim :
  (forall y, Math_pow nan y = nan) ->
  property anim <> "orbit" ->
  window_start anim = ct ->
  window_end dur anim = ct ->
  active dur ct anim = true ->
  interpolation dur ct anim = nan
  /\ apply_animation dur ct bag anim !! property anim = Some (VNum nan).
Proof.
  intros Hpow Hk Hs He Ha.
  assert (Hp : interpolation dur ct anim = nan).
  { unfold interpolation. rewrite Hs, He. apply FloatFacts.sub_diag_div_nan. }
  split; [exact Hp|].
  rewrite apply_animation_active_tween by assumption.
  rewrite lookup_insert_eq. unfold Player.eased_at.
  now rewrite Hp, applyEasing_nan, tween_nan.
Qed.

(** C4 (orbit past its window).  For an animation declared after any others,
    once [currentTime > end]: an orbit applies no update, so the whole
    property bag, [x] and [y] included, is what the earlier rules produced;
    any other property is frozen at [to]. *)
Theorem orbit_past_end_applies_no_update dur ct (bag : gmap string value) pre anim :
  past_end dur ct anim = true ->
  (property anim = "orbit" ->
   apply_animations dur ct bag (pre ++ [anim]) = apply_animations dur ct bag pre)
  /\ (property anim <> "orbit" ->
      apply_animations dur ct bag (pre ++ [anim]) !! property anim
      = Some (field_value (to anim))).
Proof.
  intros Hp. rewrite apply_animations_snoc. split; intros Hk.
  - now apply apply_animation_past_end_orbit.
  - rewrite apply_animation_past_end_freeze by assumption.
    apply lookup_insert_eq.
Qed.

(** C6 (declared order).  When two animations of a layer target the same
    property [k] and both are active, the resolved value of [k] is the one the
    later-declared animation computes, whatever else is declared before or
    between them, as long as nothing declared after it targets [k]. *)
Theorem later_animation_wins dur ct (bag : gmap string value) pre a1 mid a2 post k :
  k <> "orbit" ->
  property a1 = k -> property a2 = k ->
  active dur ct a1 = true -> active dur ct a2 = true ->
  forallb (fun a => negb (targets a k)) post = true ->
  apply_animations dur ct bag (pre ++ a1 :: mid ++ a2 :: post) !! k
  = Some (VNum (tween a2 (eased_at dur ct a2))).
Proof.
  intros Hk H1 H2 Ha1 Ha2 Hpost.
  rewrite apply_animations_app.
  change (a1 :: mid ++ a2 :: post)%list with ((a1 :: mid) ++ a2 :: post)%list.
  rewrite apply_animations_app.
  change (a2 :: post) with ([a2] ++ post)%list.
  rewrite apply_animations_app.
  rewrite apply_animations_other by assumption.
  change (apply_animations dur ct ?b [a2]) with (apply_animation dur ct b a2).
  rewrite apply_animation_active_tween by congruence.
  rewrite H2. apply lookup_insert_eq.
Qed.

(** C10 (a missing [to]).  For a non-orbit animation whose [to] is [null] or
    missing, past the window the property is overwritten with that raw value,
    whatever the base props held, while inside the window the missing [to]
    counts as 0. *)
Theorem absent_to_freezes_raw dur ct (bag : gmap string value) anim :
  property anim <> "orbit" ->
  to anim = Undefined \/ to anim = Null ->
  (past_end dur ct anim = true ->
   apply_animation dur ct bag anim !! property anim = Some (field_value (to anim))
   /\ (field_value (to anim) = VUndefined \/ field_value (to anim) = VNull)
   /\ field_value (to anim) <> VNum 0%float)
  /\ (active dur ct anim = true ->
      to_number (nullish (to anim) (Number 0%float)) = 0%float
      /\ exists n, apply_animation dur ct bag anim !! property anim = Some (VNum n)).
Proof.
  intros Hk Hto. split.
  - intros Hp. rewrite apply_animation_past_end_freeze by assumption.
    rewrite lookup_insert_eq.
    destruct Hto as [-> | ->]; simpl; repeat split; auto; discriminate.
  - intros Ha. rewrite apply_animation_active_tween by assumption.
    rewrite lookup_insert_eq.
    destruct Hto as [-> | ->]; simpl; split; eauto.
Qed.

Lemma draw_single d ty (base : gmap string value) anim progress :
  drawVisualization Math_pow Math_cos Math_sin (Scenes.single d ty base anim) progress
  = [(ty, apply_animation (Number d) (progress * d)%float base anim)].
Proof. reflexivity. Qed.

(** C5 (the worked example).  In a visualization of duration 5000 whose one
    layer has the one animation [start=1000, end=3000, from=0, to=100,
    easing=linear] on a non-orbit property [k]: the frame at progress
    [1000/5000] has [k = 0], at [3000/5000] and at [4000/5000] it has
    [k = 100], and at progress 0 it is the base props unchanged. *)
Theorem ramp_example k ty (base : gmap string value) :
  k <> "orbit" ->
  let V := Scenes.single 5000%float ty base (Scenes.ramp k) in
  let draw := drawVisualization Math_pow Math_cos Math_sin V in
  draw (1000 / 5000)%float = [(ty, <[k := VNum 0%float]> base)]
  /\ draw (3000 / 5000)%float = [(ty, <[k := VNum 100%float]> base)]
  /\ draw (4000 / 5000)%float = [(ty, <[k := VNum 100%float]> base)]
  /\ draw 0%float = [(ty, base)].
Proof.
  intros Hk V draw. subst draw V. rewrite !draw_single.
  split; [|split; [|split]].
  - rewrite apply_animation_active_tween by (reflexivity || exact Hk). reflexivity.
  - rewrite apply_animation_active_tween by (reflexivity || exact Hk). reflexivity.
  - rewrite apply_animation_past_end_freeze by (reflexivity || exact Hk). reflexivity.
  - unfold Player.apply_animation.
    change (active (Number 5000%float) (0 * 5000)%float (Scenes.ramp k)) with false.
    change (past_end (Number 5000%float) (0 * 5000)%float (Scenes.ramp k)) with false.
    reflexivity.
Qed.

(** C7 (orbit).  While an orbit animation is active the resolved position is
    [x = centerX + cos(2 pi eased) * radius], [y = centerY + sin(2 pi eased) *
    radius], whatever [from] and [to] are.  For the orbit around [(350, 225)]
    of radius 100 over the whole duration, the position at progress 0 is
    [(450, 225)] (the cosine and sine of 0 being 1 and 0), and at progress
    0.25 it is [(350, 325)] as soon as the platform's cosine and sine at that
    angle are within one unit in the last place of the correctly rounded
    values. *)
Theorem orbit_position :
  (forall dur ct (bag : gmap string value) anim cx cy r,
     property anim = "orbit" -> active dur ct anim = true ->
     centerX anim = Number cx -> Num.truthy cx = true ->
     centerY anim = Number cy -> Num.truthy cy = true ->
     radius anim = Number r -> Num.truthy r = true ->
     let angle := (2 * Num.PI * eased_at dur ct anim)%float in
     let bag' := apply_animation dur ct bag anim in
     bag' !! "x" = Some (VNum (cx + Math_cos angle * r)%float)
     /\ bag' !! "y" = Some (VNum (cy + Math_sin angle * r)%float))
  /\ (forall f t d ty (base : gmap string value),
        In d [5000; 6500; 7000; 8000; 9500]%float ->
        let draw := drawVisualization Math_pow Math_cos Math_sin
                      (Scenes.single d ty base (Scenes.orbit f t d)) in
        (Math_cos 0%float = 1%float -> Math_sin 0%float = 0%float ->
         draw 0%float
         = [(ty, <["y" := VNum 225%float]> (<["x" := VNum 450%float]> base))])
        /\ (Scenes.within_one_ulp (Math_cos Scenes.quarter_turn) Scenes.cos_quarter_turn ->
            Scenes.within_one_ulp (Math_sin Scenes.quarter_turn) 1%float ->
            draw 0.25%float
            = [(ty, <["y" := VNum 325%float]> (<["x" := VNum 350%float]> base))])).
Proof.
  split.
  - intros dur ct bag anim cx cy r Hk Ha Hcx Tcx Hcy Tcy Hr Tr angle bag'.
    subst bag' angle. rewrite apply_animation_active_orbit by assumption.
    unfold orbit_x, orbit_y, or_else. rewrite Hcx, Hcy, Hr. simpl.
    rewrite Tcx, Tcy, Tr. simpl. split.
    + rewrite lookup_insert_ne by discriminate. apply lookup_insert_eq.
    + apply lookup_insert_eq.
  - intros f t d ty base Hd draw. subst draw. rewrite !draw_single.
    assert (Hact0 : active (Number d) (0 * d)%float (Scenes.orbit f t d) = true
                    /\ eased_at (Number d) (0 * d)%float (Scenes.orbit f t d) = 0%float
                    /\ active (Number d) (0.25 * d)%float (Scenes.orbit f t d) = true
                    /\ eased_at (Number d) (0.25 * d)%float (Scenes.orbit f t d)
                       = 0.25%float).
    { simpl in Hd.
      destruct Hd as [<-|[<-|[<-|[<-|[<-|[]]]]]]; repeat split; reflexivity. }
    destruct Hact0 as (A0 & E0 & A1 & E1). split.
    + intros Hc Hs. rewrite apply_animation_active_orbit by (exact A0 || reflexivity).
      rewrite E0. unfold orbit_x, orbit_y.
      change (2 * Num.PI * 0)%float with 0%float. rewrite Hc, Hs. reflexivity.
    + intros Hc Hs. rewrite apply_animation_active_orbit by (exact A1 || reflexivity).
      rewrite E1. unfold orbit_x, orbit_y.
      change (2 * Num.PI * 0.25)%float with Scenes.quarter_turn.
      destruct Hc as [-> | [-> | ->]], Hs as [-> | [-> | ->]]; reflexivity.
Qed.

End PlayerFacts.

(** *** The statements above at concrete scenes *)

Lemma zero_width_window_resolves_nan_witness :
  let anim :=
    {| Player.property := "x"; Player.from := Player.Number 0%float;
       Player.to := Player.Number 100%float;
       Player.start := Player.Number 1000%float;
       Player.end_ := Player.Number 1000%float;
       Player.easing := Some "ease-out";
       Player.centerX := Player.Undefined; Player.centerY := Player.Undefined;
       Player.radius := Player.Undefined |} in
  let ct := (0.5 * 2000)%float in
  Player.interpolation (Player.Number 2000%float) ct anim = nan
  /\ Player.apply_animation Scenes.pow_sample Scenes.cos_sample Scenes.sin_sample
       (Player.Number 2000%float) ct {[ "x" := Player.VNum 40%float ]} anim !! "x"
     = Some (Player.VNum nan).
Proof.
  intros anim ct.
  apply (zero_width_window_resolves_nan Scenes.pow_sample Scenes.cos_sample
           Scenes.sin_sample (Player.Number 2000%float) ct _ anim).
  - intros y. reflexivity.
  - discriminate.
  - reflexivity.
  - reflexivity.
  - reflexivity.
Defined.

Lemma orbit_past_end_applies_no_update_witness :
  let orbit := Scenes.orbit Player.Undefined Player.Undefined 3000%float in
  let ramp := Scenes.ramp "x" in
  let apply := Player.apply_animations Scenes.pow_sample Scenes.cos_sample
                 Scenes.sin_sample (Player.Number 5000%float) 4000%float
                 {[ "x" := Player.VNum 40%float ]} in
  (Player.property orbit = "orbit" -> apply [ramp; orbit] = apply [ramp])
  /\ (Player.property ramp <> "orbit" ->
      apply [ramp; ramp] !! Player.property ramp
      = Some (Player.field_value (Player.to ramp))).
Proof.
  intros orbit ramp apply. split.
  - apply (orbit_past_end_applies_no_update Scenes.pow_sample Scenes.cos_sample
             Scenes.sin_sample (Player.Number 5000%float) 4000%float
             {[ "x" := Player.VNum 40%float ]} [ramp] orbit).
    reflexivity.
  - apply (orbit_past_end_applies_no_update Scenes.pow_sample Scenes.cos_sample
             Scenes.sin_sample (Player.Number 5000%float) 4000%float
             {[ "x" := Player.VNum 40%float ]} [ramp] ramp).
    reflexivity.
Defined.

Lemma ramp_example_witness :
  let draw :=
    Player.drawVisualization Scenes.pow_sample Scenes.cos_sample Scenes.sin_sample
      (Scenes.single 5000%float "circle" {[ "x" := Player.VNum 40%float ]}
         (Scenes.ramp "x")) in
  draw (1000 / 5000)%float
  = [("circle", <["x" := Player.VNum 0%float]> {[ "x" := Player.VNum 40%float ]})]
  /\ draw (3000 / 5000)%float
     = [("circle", <["x" := Player.VNum 100%float]> {[ "x" := Player.VNum 40%float ]})]
  /\ draw (4000 / 5000)%float
     = [("circle", <["x" := Player.VNum 100%float]> {[ "x" := Player.VNum 40%float ]})]
  /\ draw 0%float = [("circle", {[ "x" := Player.VNum 40%float ]})].
Proof.
  apply (ramp_example Scenes.pow_sample Scenes.cos_sample Scenes.sin_sample
           "x" "circle" {[ "x" := Player.VNum 40%float ]}).
  discriminate.
Defined.

Lemma later_animation_wins_witness :
  let slow :=
    {| Player.property := "x"; Player.from := Player.Number 0%float;
       Player.to := Player.Number 100%float;
       Player.start := Player.Number 0%float; Player.end_ := Player.Number 4000%float;
       Player.easing := None;
       Player.centerX := Player.Undefined; Player.centerY := Player.Undefined;
       Player.radius := Player.Undefined |} in
  let fast :=
    {| Player.property := "x"; Player.from := Player.Number 200%float;
       Player.to := Player.Number 600%float;
       Player.start := Player.Number 1000%float; Player.end_ := Player.Number 3000%float;
       Player.easing := None;
       Player.centerX := Player.Undefined; Player.centerY := Player.Undefined;
       Player.radius := Player.Undefined |} in
  Player.apply_animations Scenes.pow_sample Scenes.cos_sample Scenes.sin_sample
    (Player.Number 5000%float) 2000%float ∅ ([] ++ slow :: [] ++ fast :: [Scenes.ramp "y"])
    !! "x"
  = Some (Player.VNum 400%float).
Proof.
  intros slow fast.
  apply (later_animation_wins Scenes.pow_sample Scenes.cos_sample Scenes.sin_sample
           (Player.Number 5000%float) 2000%float ∅ [] slow [] fast [Scenes.ramp "y"] "x");
    (discriminate || reflexivity).
Defined.

Lemma orbit_position_witness :
  let draw :=
    Player.drawVisualization Scenes.pow_sample Scenes.cos_sample Scenes.sin_sample
      (Scenes.single 8000%float "circle" ∅
         (Scenes.orbit (Player.Number 10%float) Player.Null 8000%float)) in
  draw 0%float
  = [("circle", <["y" := Player.VNum 225%float]> (<["x" := Player.VNum 450%float]> ∅))]
  /\ draw 0.25%float
     = [("circle", <["y" := Player.VNum 325%float]> (<["x" := Player.VNum 350%float]> ∅))].
Proof.
  intros draw.
  destruct (proj2 (orbit_position Scenes.pow_sample Scenes.cos_sample Scenes.sin_sample)
              (Player.Number 10%float) Player.Null 8000%float "circle" ∅)
    as [H0 H1].
  - simpl. tauto.
  - split.
    + apply H0; reflexivity.
    + apply H1; right; left; reflexivity.
Defined.

Lemma absent_to_freezes_raw_witness :
  let anim :=
    {| Player.property := "opacity"; Player.from := Player.Number 1%float;
       Player.to := Player.Undefined;
       Player.start := Player.Number 0%float; Player.end_ := Player.Number 1000%float;
       Player.easing := None;
       Player.centerX := Player.Undefined; Player.centerY := Player.Undefined;
       Player.radius := Player.Undefined |} in
  Player.apply_animation Scenes.pow_sample Scenes.cos_sample Scenes.sin_sample
    (Player.Number 5000%float) 2000%float {[ "opacity" := Player.VNum 1%float ]} anim
    !! "opacity"
  = Some Player.VUndefined.
Proof.
  intros anim.
  apply (proj1 (absent_to_freezes_raw Scenes.pow_sample Scenes.cos_sample
                  Scenes.sin_sample (Player.Number 5000%float) 2000%float
                  {[ "opacity" := Player.VNum 1%float ]} anim
                  ltac:(discriminate) (or_introl eq_refl))).
  reflexivity.
Defined.

(** ** The broadcast hub *)

Section BroadcastFacts.

Import Server.

Variable JSON_stringify : payload -> string.

Abbreviation deliver := (Server.deliver JSON_stringify).
Abbreviation broadcast := (Server.broadcast JSON_stringify).
Abbreviation data_line := (Server.data_line JSON_stringify).

Lemma deliver_client_id event data c :
  client_id (deliver event data c) = client_id c.
Proof.
  unfold Server.deliver, write.
  destruct (throws (res c) (attempts (res c))); reflexivity.
Qed.

(** Every call of the callback makes at least one write attempt. *)
Lemma deliver_attempts event data c :
  attempts (res c) < attempts (res (deliver event data c)).
Proof.
  unfold Server.deliver, write.
  destruct (throws (res c) (attempts (res c))); simpl; [lia|].
  destruct (throws (res c) (S (attempts (res c)))); simpl; lia.
Qed.

Lemma deliver_written event data c :
  throws (res c) (attempts (res c)) = false ->
  throws (res c) (S (attempts (res c))) = false ->
  written (res (deliver event data c))
  = (written (res c) ++ [event_line event; data_line data])%list.
Proof.
  intros H1 H2. unfold Server.deliver, write. rewrite H1. simpl. rewrite H2. simpl.
  now rewrite <- app_assoc.
Qed.

(** C8 (failure isolation).  [broadcast] never throws and leaves the store
    alone.  It makes a write attempt on every registered channel, whatever
    the other channels do, and a channel whose own two writes do not throw
    receives the event line and the data line. *)
Theorem broadcast_isolates_failures event data w :
  exists w',
    broadcast event data w = (Ok tt, w')
    /\ questions w' = questions w
    /\ answers w' = answers w
    /\ length (clients w') = length (clients w)
    /\ forall i c,
         clients w !! i = Some c ->
         exists c',
           clients w' !! i = Some c'
           /\ client_id c' = client_id c
           /\ attempts (res c) < attempts (res c')
           /\ (throws (res c) (attempts (res c)) = false ->
               throws (res c) (S (attempts (res c))) = false ->
               written (res c')
               = (written (res c) ++ [event_line event; data_line data])%list).
Proof.
  eexists. split; [reflexivity|]. simpl. repeat split.
  - apply length_map.
  - intros i c Hc. exists (deliver event data c). split.
    + rewrite list_lookup_fmap, Hc. reflexivity.
    + split; [apply deliver_client_id|].
      split; [apply deliver_attempts|]. apply deliver_written.
Qed.

End BroadcastFacts.

(** ** Scene normalisation *)

Section NormalizeFacts.

Import Server.

Variable Date_now_read : nat -> Z.

Abbreviation normalize := (Server.normalize Date_now_read).

Lemma or_default_positive x d :
  is_positive d = true ->
  truthy x = false \/ (exists n, x = Some (JNumber n) /\ (0 <? n)%float = true) ->
  is_positive (or_default x d) = true.
Proof.
  intros Hd [Hx | (n & -> & Hn)].
  - unfold or_default. destruct x; [rewrite Hx|]; exact Hd.
  - unfold or_default. destruct (truthy (Some (JNumber n))); [exact Hn | exact Hd].
Qed.

(** C9, amended (defaults for falsy fields).  Normalising a scene object
    always succeeds.  A top-level field of its [visualization] that is missing
    or falsy is replaced by its default (a fresh [vis_] identifier, 8000, 30),
    a truthy one is kept as it is, and [layers] is kept when it is an array and
    replaced by the empty sequence otherwise.  The result has [duration > 0]
    when the incoming duration is missing, falsy, or a positive number. *)
Theorem normalize_defaults ms w :
  let v := or_default (member "visualization" (JObject ms)) (JObject []) in
  exists vis w',
    normalize (JObject ms) w = (Ok vis, w')
    /\ questions w' = questions w /\ answers w' = answers w /\ clients w' = clients w
    /\ vis_id vis
       = (if truthy (member "id" v) then default JNull (member "id" v)
          else JString ("vis_" +:+ pretty (Date_now_read (clock_reads w))))
    /\ duration vis
       = (if truthy (member "duration" v) then default JNull (member "duration" v)
          else JNumber 8000%float)
    /\ fps vis
       = (if truthy (member "fps" v) then default JNull (member "fps" v)
          else JNumber 30%float)
    /\ layers vis
       = match member "layers" v with
         | Some (JArray items) => items
         | _ => []
         end
    /\ (truthy (member "duration" v) = false
        \/ (exists n, member "duration" v = Some (JNumber n) /\ (0 <? n)%float = true) ->
        is_positive (duration vis) = true).
Proof.
  intros v. unfold Server.normalize. fold v.
  assert (Hd : forall x d, or_default x d = if truthy x then default JNull x else d).
  { intros [j|] d; simpl; [|reflexivity]. now destruct (truthy (Some j)). }
  unfold bind, or_compute.
  destruct (member "id" v) as [j|] eqn:Hid.
  - destruct (truthy (Some j)) eqn:Hj.
    + do 2 eexists. split; [reflexivity|]. simpl. rewrite !Hd.
      repeat split. intros H. rewrite <- Hd. now apply or_default_positive.
    + do 2 eexists. split; [reflexivity|]. simpl. rewrite !Hd.
      repeat split. intros H. rewrite <- Hd. now apply or_default_positive.
  - do 2 eexists. split; [reflexivity|]. simpl. rewrite !Hd.
    repeat split. intros H. rewrite <- Hd. now apply or_default_positive.
Qed.

End NormalizeFacts.

(** C9 as stated fails: a negative duration is truthy, so normalisation
    keeps it and the result does not have [duration > 0]. *)
Lemma normalize_keeps_negative_duration :
  exists vis w',
    Server.normalize Sample.clock Sample.negative_duration Sample.quiet = (Server.Ok vis, w')
    /\ Server.duration vis = Server.JNumber (-5)%float
    /\ Server.is_positive (Server.duration vis) = false.
Proof. do 2 eexists. split; [vm_compute; reflexivity|]. split; reflexivity. Qed.

(** ** The submission handler *)

Section SubmissionFacts.

Import Server.

Variable uuidv4_draw : nat -> string.
Variable Date_now_read : nat -> Z.
Variable toISOString : Z -> string.
Variable JSON_stringify : payload -> string.
Variable String_trim : string -> string.
Variable ToString : json -> string.

Abbreviation broadcast := (Server.broadcast JSON_stringify).
Abbreviation on_delta := (Server.on_delta JSON_stringify).
Abbreviation groqVizJSON := (Server.groqVizJSON Date_now_read).
Abbreviation submission :=
  (Server.submission uuidv4_draw Date_now_read toISOString JSON_stringify String_trim).
Abbreviation fallback_handler :=
  (Server.fallback_handler uuidv4_draw Date_now_read toISOString JSON_stringify ToString).
Abbreviation post_questions :=
  (Server.post_questions uuidv4_draw Date_now_read toISOString JSON_stringify
     String_trim ToString).

Lemma same_records_refl w : same_records w w.
Proof. repeat split. Qed.

Lemma same_records_trans w1 w2 w3 :
  same_records w1 w2 -> same_records w2 w3 -> same_records w1 w3.
Proof. unfold same_records. intros (?&?&?) (?&?&?). repeat split; congruence. Qed.

(** The streaming loop never throws: each delta is broadcast with the text
    accumulated so far. *)
Lemma readGroqStream_run aid qid ds :
  forall acc w,
  exists acc' w',
    readGroqStream (on_delta aid qid)
      acc ds w = (Ok acc', w')
    /\ same_records w w'.
Proof.
  induction ds as [|d ds IH]; intros acc w; simpl.
  - do 2 eexists. split; [reflexivity | apply same_records_refl].
  - unfold bind at 1, Server.on_delta at 1. simpl.
    edestruct IH as (acc' & w' & -> & Hs).
    do 2 eexists. split; [reflexivity|]. exact Hs.
Qed.

Lemma groqStreamText_run aid qid o w :
  exists r w',
    groqStreamText o (on_delta aid qid)
      "" w = (r, w')
    /\ same_records w w'
    /\ (stream_throws o = true -> exists e, r = Throw e)
    /\ (stream_throws o = false -> exists text, r = Ok text).
Proof.
  unfold groqStreamText, bind, stream_throws.
  destruct (readGroqStream_run aid qid (deltas o) "" w) as (acc' & w' & -> & Hs).
  destruct (stream_error o) as [e|]; do 2 eexists;
    (split; [reflexivity|]); (split; [exact Hs|]); split; intros H;
    try discriminate; eauto.
Qed.

Lemma or_compute_fresh_run x w :
  exists j w',
    or_compute x (fresh_vis_id Date_now_read) w = (Ok j, w') /\ same_records w w'.
Proof.
  unfold or_compute. destruct x as [j|]; [destruct (truthy (Some j))|];
    do 2 eexists; (split; [reflexivity | repeat split]).
Qed.

Lemma normalize_run parsed w :
  exists r w',
    Server.normalize Date_now_read parsed w = (r, w')
    /\ same_records w w'
    /\ (viz_throws (VizContent (Some parsed)) = true -> exists e, r = Throw e)
    /\ (viz_throws (VizContent (Some parsed)) = false -> exists vis, r = Ok vis).
Proof.
  unfold Server.normalize.
  destruct parsed;
    try (do 2 eexists; split; [reflexivity|]; split; [repeat split|];
         split; intros H; try discriminate; eauto; fail);
    unfold bind;
    match goal with
    | |- context [or_compute ?x _ w] =>
        destruct (or_compute_fresh_run x w) as (j & w' & -> & Hs)
    end;
    do 2 eexists; (split; [reflexivity|]); (split; [exact Hs|]);
    split; intros H; try discriminate; eauto.
Qed.

Lemma groqVizJSON_run o w :
  exists r w',
    groqVizJSON o w = (r, w')
    /\ same_records w w'
    /\ (viz_throws o = true -> exists e, r = Throw e)
    /\ (viz_throws o = false -> exists vis, r = Ok vis).
Proof.
  destruct o as [e | [parsed|]].
  - do 2 eexists. split; [reflexivity|]. split; [repeat split|].
    split; intros H; try discriminate; eauto.
  - apply normalize_run.
  - do 2 eexists. split; [reflexivity|]. split; [repeat split|].
    split; intros H; try discriminate; eauto.
Qed.

(** The record stored for an accepted submission. *)
Lemma submission_run body q gen w :
  accepted body q ->
  let questionId := "q_" +:+ uuidv4_draw (uuid_draws w) in
  let answerId := "a_" +:+ uuidv4_draw (S (uuid_draws w)) in
  exists r w1 qrec,
    submission body gen w = (r, w1)
    /\ questions w1 = (questions w ++ [qrec])%list
    /\ question_id qrec = questionId
    /\ Server.answerId qrec = answerId
    /\ question_text qrec = String_trim q
    /\ uuid_draws w1 = S (S (uuid_draws w))
    /\ (generation_throws gen = true ->
        (exists e, r = Throw e) /\ answers w1 = answers w)
    /\ (generation_throws gen = false ->
        r = Ok (Json200 true questionId answerId)
        /\ exists ans, answers w1 = (answers w ++ [ans])%list /\ answer_id ans = answerId).
Proof.
  intros (Hu & Hq & Hne) questionId answerId. subst questionId answerId.
  assert (Hqt : truthy (Some (JString q)) = true).
  { simpl. apply negb_true_iff. now apply String.eqb_neq. }
  unfold Server.submission. rewrite Hu, Hq, Hqt. simpl.
  do 7 (unfold bind at 1; simpl). unfold bind at 1.
  match goal with
  | |- context [groqStreamText ?o (Server.on_delta _ ?aid ?qid) ?acc ?w0] =>
      destruct (groqStreamText_run aid qid o w0)
        as (r & w1 & Hrun & (Hq1 & Ha1 & Hd1) & Hthrow & Hok)
  end.
  rewrite Hrun. simpl in Hq1, Ha1, Hd1.
  unfold generation_throws.
  destruct (stream_throws (text_stream gen)).
  - destruct Hthrow as [e ->]; [reflexivity|].
    do 3 eexists. split; [reflexivity|].
    split; [exact Hq1|]. do 3 (split; [reflexivity|]). split; [exact Hd1|].
    split; intros H; [|discriminate]. split; [eauto | exact Ha1].
  - destruct Hok as [text0 ->]; [reflexivity|].
    unfold bind at 1.
    destruct (groqVizJSON_run (viz gen) w1)
      as (r2 & w2 & Hrun2 & (Hq2 & Ha2 & Hd2) & Hthrow2 & Hok2).
    rewrite Hrun2. simpl.
    destruct (viz_throws (viz gen)).
    + destruct Hthrow2 as [e ->]; [reflexivity|].
      do 3 eexists. split; [reflexivity|].
      split; [rewrite Hq2; exact Hq1|]. do 3 (split; [reflexivity|]).
      split; [rewrite Hd2; exact Hd1|].
      split; intros H; [|discriminate]. split; [eauto | rewrite Ha2; exact Ha1].
    + destruct Hok2 as [vis ->]; [reflexivity|].
      do 3 eexists. split; [reflexivity|]. simpl.
      split; [rewrite Hq2; exact Hq1|]. do 3 (split; [reflexivity|]).
      split; [rewrite Hd2; exact Hd1|].
      split; intros H; [discriminate|]. split; [reflexivity|].
      eexists. split; [rewrite Ha2, Ha1; reflexivity | reflexivity].
Qed.


Lemma prefixed_ne (p u u' : string) : u <> u' -> p +:+ u <> p +:+ u'.
Proof.
  intros Hne H. apply Hne. induction p as [|c p IH]; simpl in H; [exact H|].
  injection H as H. now apply IH.
Qed.

(** What the [catch] block does, from any world. *)
Lemma fallback_handler_run body w :
  let fallback :=
    {| answer_id := "a_" +:+ uuidv4_draw (uuid_draws w);
       text := fallback_text ToString (member "question" body);
       answer_visualization :=
         {| vis_id := JString ("vis_" +:+ pretty (Date_now_read (clock_reads w)));
            duration := JNumber 7000%float; fps := JNumber 30%float; layers := [] |};
       answer_timestamp := toISOString (Date_now_read (S (clock_reads w))) |} in
  exists w',
    fallback_handler body w
    = (Ok (Json200 true ("q_" +:+ uuidv4_draw (S (uuid_draws w))) (answer_id fallback)), w')
    /\ questions w' = questions w
    /\ answers w' = (answers w ++ [fallback])%list.
Proof.
  intros fallback. subst fallback.
  unfold Server.fallback_handler, new_Date_toISOString.
  repeat (unfold bind at 1; simpl).
  eexists. split; [reflexivity|]. split; reflexivity.
Qed.

(** C1 (failure masking).  When a submission is accepted and one of its
    external generation calls throws, the response is still [success: true]
    with a question id and an answer id, and an answer is appended to the
    store whose id is the returned answer id, whose text contains the
    question as submitted, and whose visualization has duration 7000 and no
    layers. *)
Theorem generation_failure_is_masked body q gen w :
  accepted body q ->
  generation_throws gen = true ->
  exists questionId fallback w',
    post_questions body gen w
    = (Ok (Json200 true questionId (answer_id fallback)), w')
    /\ answers w' = (answers w ++ [fallback])%list
    /\ occurs_in q (text fallback)
    /\ duration (answer_visualization fallback) = JNumber 7000%float
    /\ layers (answer_visualization fallback) = [].
Proof.
  intros Hacc Hthrow.
  destruct (submission_run body q gen w Hacc)
    as (r & w1 & qrec & Hrun & _ & _ & _ & _ & _ & Hfail & _).
  destruct (Hfail Hthrow) as [[e ->] Ha].
  destruct (fallback_handler_run body w1) as (w' & Hfb & _ & Hans).
  unfold Server.post_questions, try_catch. rewrite Hrun, Hfb.
  do 3 eexists. split; [reflexivity|]. rewrite Hans, Ha.
  split; [reflexivity|]. split; [|split; reflexivity].
  destruct Hacc as (_ & Hq & _). simpl. rewrite Hq.
  exists ("Here is a brief overview of " +:+ quote), (quote +:+ "."). reflexivity.
Qed.

(** C2 (the pre-allocated answer id).  For an accepted submission whose
    generation succeeds, the stored answer has the id recorded on the stored
    question, and the response returns the ids of both records.  When the
    generation throws, the [catch] block draws two further identifiers: the
    stored answer and the returned question id are built from them, and so
    differ from the ids on the stored question whenever the identifiers
    drawn are distinct. *)
Theorem fallback_ids_are_drawn_anew body q gen w :
  accepted body q ->
  let n := uuid_draws w in
  (generation_throws gen = false ->
   exists w' qrec ans,
     post_questions body gen w
     = (Ok (Json200 true (question_id qrec) (answer_id ans)), w')
     /\ questions w' = (questions w ++ [qrec])%list
     /\ answers w' = (answers w ++ [ans])%list
     /\ answer_id ans = answerId qrec)
  /\ (generation_throws gen = true ->
      exists w' qrec ans questionId,
        post_questions body gen w = (Ok (Json200 true questionId (answer_id ans)), w')
        /\ questions w' = (questions w ++ [qrec])%list
        /\ answers w' = (answers w ++ [ans])%list
        /\ question_id qrec = "q_" +:+ uuidv4_draw n
        /\ answerId qrec = "a_" +:+ uuidv4_draw (1 + n)
        /\ answer_id ans = "a_" +:+ uuidv4_draw (2 + n)
        /\ questionId = "q_" +:+ uuidv4_draw (3 + n)
        /\ (uuidv4_draw (2 + n) <> uuidv4_draw (1 + n) -> answer_id ans <> answerId qrec)
        /\ (uuidv4_draw (3 + n) <> uuidv4_draw n -> questionId <> question_id qrec)).
Proof.
  intros Hacc n. subst n.
  destruct (submission_run body q gen w Hacc)
    as (r & w1 & qrec & Hrun & Hqs & Hqid & Haid & _ & Hdraws & Hfail & Hsucc).
  unfold Server.post_questions, try_catch. rewrite Hrun. split; intros Hgen.
  - destruct (Hsucc Hgen) as (-> & ans & Hans & Hid).
    exists w1, qrec, ans. rewrite Hqid, Hid, Haid. repeat split; assumption.
  - destruct (Hfail Hgen) as [[e ->] Ha].
    destruct (fallback_handler_run body w1) as (w' & Hfb & Hqs' & Hans).
    rewrite Hdraws in Hfb, Hans. rewrite Hfb. do 4 eexists. split; [reflexivity|].
    rewrite Hqs', Hqs, Hans, Ha, Hqid, Haid. simpl.
    do 6 (split; [reflexivity|]). split; apply prefixed_ne.
Qed.

End SubmissionFacts.

(** *** The statements above on a sample run

    The submission ["What is photosynthesis?"] by user [u1], with the text
    request failing, on a server with two subscribers. *)

Lemma sample_accepted : Server.accepted Sample.photosynthesis "What is photosynthesis?".
Proof. repeat split. discriminate. Qed.

Lemma generation_failure_is_masked_witness :
  exists questionId fallback w',
    Server.post_questions Sample.uuid Sample.clock Sample.iso Sample.stringify
      Sample.trim Sample.show Sample.photosynthesis Sample.upstream_down Sample.quiet
    = (Server.Ok (Server.Json200 true questionId (Server.answer_id fallback)), w')
    /\ Server.answers w' = (Server.answers Sample.quiet ++ [fallback])%list
    /\ Server.occurs_in "What is photosynthesis?" (Server.text fallback)
    /\ Server.duration (Server.answer_visualization fallback) = Server.JNumber 7000%float
    /\ Server.layers (Server.answer_visualization fallback) = [].
Proof.
  apply (generation_failure_is_masked Sample.uuid Sample.clock Sample.iso
           Sample.stringify Sample.trim Sample.show Sample.photosynthesis
           "What is photosynthesis?" Sample.upstream_down Sample.quiet).
  - exact sample_accepted.
  - reflexivity.
Defined.

Lemma fallback_ids_are_drawn_anew_witness :
  exists w' qrec ans questionId,
    Server.post_questions Sample.uuid Sample.clock Sample.iso Sample.stringify
      Sample.trim Sample.show Sample.photosynthesis Sample.upstream_down Sample.quiet
    = (Server.Ok (Server.Json200 true questionId (Server.answer_id ans)), w')
    /\ Server.questions w' = [qrec]
    /\ Server.answers w' = [ans]
    /\ Server.answer_id ans <> Server.answerId qrec
    /\ questionId <> Server.question_id qrec.
Proof.
  destruct (proj2 (fallback_ids_are_drawn_anew Sample.uuid Sample.clock Sample.iso
                     Sample.stringify Sample.trim Sample.show Sample.photosynthesis
                     "What is photosynthesis?" Sample.upstream_down Sample.quiet
                     sample_accepted) eq_refl)
    as (w' & qrec & ans & questionId & Hrun & Hqs & Has & _ & _ & _ & _ & Ha & Hq).
  exists w', qrec, ans, questionId.
  split; [exact Hrun|]. split; [exact Hqs|]. split; [exact Has|]. split.
  - apply Ha. vm_compute. discriminate.
  - apply Hq. vm_compute. discriminate.
Defined.

(** The same run, evaluated: the stored question points at answer [a_1], the
    stored answer is [a_2], and the response names question [q_3]. *)
Example upstream_down_run :
  let run :=
    Server.post_questions Sample.uuid Sample.clock Sample.iso Sample.stringify
      Sample.trim Sample.show Sample.photosynthesis Sample.upstream_down Sample.quiet in
  fst run = Server.Ok (Server.Json200 true "q_3" "a_2")
  /\ map Server.question_id (Server.questions (snd run)) = ["q_0"]
  /\ map Server.answerId (Server.questions (snd run)) = ["a_1"]
  /\ map Server.answer_id (Server.answers (snd run)) = ["a_2"].
Proof. vm_compute. repeat split. Qed.

(** A broadcast on the sample server: the first subscriber's write throws,
    the second still receives both lines. *)
Example broadcast_past_broken_channel :
  let run :=
    Server.broadcast Sample.stringify "generation_started"
      (Server.generation_started "a_1" "q_0") Sample.quiet in
  fst run = Server.Ok tt
  /\ map (fun c => length (Server.written (Server.res c))) (Server.clients (snd run))
     = [0; 2].
Proof. vm_compute. repeat split. Qed.

(** The frame drawn at the instant of a zero-width window. *)
Example zero_width_frame :
  Player.drawVisualization Scenes.pow_sample Scenes.cos_sample Scenes.sin_sample
    (Scenes.single 2000%float "circle" {[ "x" := Player.VNum 40%float ]}
       {| Player.property := "x"; Player.from := Player.Number 0%float;
          Player.to := Player.Number 100%float;
          Player.start := Player.Number 1000%float;
          Player.end_ := Player.Number 1000%float;
          Player.easing := Some "linear";
          Player.centerX := Player.Undefined; Player.centerY := Player.Undefined;
          Player.radius := Player.Undefined |})
    0.5%float
  = [("circle", <["x" := Player.VNum nan]> {[ "x" := Player.VNum 40%float ]})].
Proof. reflexivity. Qed.

(** ** Facts about strings *)

Module StringFacts.

Lemma append_nil_r (s : string) : s +:+ EmptyString = s.
Proof.
  induction s as [|c s IH]; [reflexivity|].
  change (String c s +:+ EmptyString) with (String c (s +:+ EmptyString)).
  now rewrite IH.
Qed.

Lemma append_assoc (a b c : string) : a +:+ b +:+ c = (a +:+ b) +:+ c.
Proof.
  induction a as [|x a IH]; [reflexivity|].
  change (String x a +:+ b +:+ c) with (String x (a +:+ b +:+ c)).
  change ((String x a +:+ b) +:+ c) with (String x ((a +:+ b) +:+ c)).
  now rewrite IH.
Qed.

End StringFacts.

(** ** Reading the streamed response body *)

Section StreamFacts.

Import Server Stream.

Variable JSON_parse : string -> option json.
Variable is_space : Ascii.ascii -> bool.

Abbreviation processBuffer := (Stream.processBuffer JSON_parse is_space).
Abbreviation read_chunks := (Stream.read_chunks JSON_parse is_space).
Abbreviation part_delta := (Stream.part_delta JSON_parse is_space).

Lemma string_ind2 (P : string -> Prop) :
  P EmptyString ->
  (forall c, P (String c EmptyString)) ->
  (forall c c' s, P s -> P (String c' s) -> P (String c (String c' s))) ->
  forall s, P s.
Proof.
  intros H0 H1 H2 s.
  assert (H : P s /\ forall c, P (String c s)); [|apply H].
  induction s as [|c' s [IHs IHc]].
  - split; [exact H0 | exact H1].
  - split; [apply IHc|]. intros c. apply H2; [exact IHs | apply IHc].
Qed.

(** Without a separator the whole string is the remainder. *)
Lemma split_events_nil s :
  fst (split_events s) = [] -> snd (split_events s) = s.
Proof.
  induction s as [|c|c c' s IHs IHc] using string_ind2; try reflexivity.
  change (split_events (String c (String c' s)))
    with (if is_newline c && is_newline c'
          then let (ps, r) := split_events s in (EmptyString :: ps, r)
          else cons_char c (split_events (String c' s))).
  destruct (is_newline c && is_newline c').
  - destruct (split_events s). discriminate.
  - destruct (split_events (String c' s)) as [[|p ps] r] eqn:E; simpl.
    + intros _. simpl in IHc. now rewrite IHc.
    + discriminate.
Qed.

(** Splitting [a ++ b] is splitting [a], then splitting what [a] left in the
    buffer followed by [b]. *)
Lemma split_events_app b a :
  split_events (a +:+ b)
  = (let (ps, r) := split_events a in
     let (ps', r') := split_events (r +:+ b) in
     ((ps ++ ps')%list, r')).
Proof.
  induction a as [|c|c c' s IHs IHc] using string_ind2.
  - change (split_events EmptyString) with (@nil string, EmptyString).
    cbv beta iota. change (EmptyString +:+ b) with b.
    destruct (split_events b). reflexivity.
  - change (split_events (String c EmptyString))
      with (@nil string, String c EmptyString).
    cbv beta iota. change (String c EmptyString +:+ b) with (String c b).
    destruct (split_events (String c b)). reflexivity.
  - change (split_events (String c (String c' s)))
      with (if is_newline c && is_newline c'
            then let (ps, r) := split_events s in (EmptyString :: ps, r)
            else cons_char c (split_events (String c' s))).
    change (split_events (String c (String c' s) +:+ b))
      with (if is_newline c && is_newline c'
            then let (ps, r) := split_events (s +:+ b) in (EmptyString :: ps, r)
            else cons_char c (split_events (String c' s +:+ b))).
    destruct (is_newline c && is_newline c') eqn:Hsep.
    + rewrite IHs. destruct (split_events s) as [ps r].
      now destruct (split_events (r +:+ b)).
    + destruct (split_events (String c' s)) as [[|p ps] r] eqn:E.
      * assert (Hr : r = String c' s).
        { pose proof (split_events_nil (String c' s)) as H. rewrite E in H.
          exact (H eq_refl). }
        subst r. clear IHc.
        change (cons_char c ([], String c' s))
          with (@nil string, String c (String c' s)).
        cbv beta iota.
        change (String c (String c' s) +:+ b) with (String c (String c' (s +:+ b))).
        change (split_events (String c (String c' (s +:+ b))))
          with (if is_newline c && is_newline c'
                then let (ps, r) := split_events (s +:+ b) in (EmptyString :: ps, r)
                else cons_char c (split_events (String c' (s +:+ b)))).
        rewrite Hsep.
        change (String c' s +:+ b) with (String c' (s +:+ b)).
        destruct (cons_char c (split_events (String c' (s +:+ b)))) as [ps' r'].
        reflexivity.
      * rewrite IHc.
        change (cons_char c (p :: ps, r)) with (String c p :: ps, r).
        cbv beta iota.
        destruct (split_events (r +:+ b)) as [ps' r']. reflexivity.
Qed.

(** The buffer that is returned holds no separator. *)
Lemma split_events_rest s :
  fst (split_events (snd (split_events s))) = [].
Proof.
  induction s as [|c|c c' s IHs IHc] using string_ind2; try reflexivity.
  change (split_events (String c (String c' s)))
    with (if is_newline c && is_newline c'
          then let (ps, r) := split_events s in (EmptyString :: ps, r)
          else cons_char c (split_events (String c' s))).
  destruct (is_newline c && is_newline c') eqn:Hsep.
  - destruct (split_events s) as [ps r]. exact IHs.
  - destruct (split_events (String c' s)) as [[|p ps] r] eqn:E.
    + assert (Hr : r = String c' s).
      { pose proof (split_events_nil (String c' s)) as H. rewrite E in H.
        exact (H eq_refl). }
      subst r. simpl cons_char. simpl snd.
      change (split_events (String c (String c' s)))
        with (if is_newline c && is_newline c'
              then let (ps, r) := split_events s in (EmptyString :: ps, r)
              else cons_char c (split_events (String c' s))).
      rewrite Hsep, E. reflexivity.
    + exact IHc.
Qed.

Lemma read_chunks_joined chunks :
  forall buffer,
    fst (split_events buffer) = [] ->
    read_chunks buffer chunks = processBuffer (buffer +:+ Routes.joined chunks).
Proof.
  induction chunks as [|chunk chunks IH]; intros buffer Hb.
  - simpl. unfold Stream.processBuffer.
    unfold Routes.joined. simpl. rewrite StringFacts.append_nil_r.
    pose proof (split_events_nil buffer Hb) as Hr.
    destruct (split_events buffer) as [ps r]. simpl in Hb, Hr. now subst.
  - simpl Stream.read_chunks. unfold Stream.processBuffer at 1.
    pose proof (split_events_rest (buffer +:+ chunk)) as Hrest.
    destruct (split_events (buffer +:+ chunk)) as [ps r] eqn:E. simpl in Hrest.
    rewrite (IH r Hrest).
    unfold Stream.processBuffer, Routes.joined. simpl fold_right.
    fold (Routes.joined chunks).
    rewrite StringFacts.append_assoc, (split_events_app (Routes.joined chunks) (buffer +:+ chunk)), E.
    destruct (split_events (r +:+ Routes.joined chunks)) as [ps' r'].
    now rewrite omap_app.
Qed.

(** X1 (chunk boundaries).  However the response body is cut into chunks,
    [readGroqStream] hands [onDelta] the deltas of the whole body's events, in
    order, and ends with the same buffer: what one call of [processBuffer] on
    the concatenated body gives.  What follows the last blank line of the body
    stays in that buffer and is never handed on. *)
Theorem chunking_is_irrelevant chunks :
  read_chunks EmptyString chunks = processBuffer (Routes.joined chunks).
Proof.
  rewrite read_chunks_joined by reflexivity.
  reflexivity.
Qed.

(** X2 (split and join).  The parts, each followed by a blank line, and then
    the returned buffer spell the input again; and the returned buffer holds
    no blank line, so that processing it a second time yields no part and
    returns it unchanged. *)
Theorem split_events_round_trip s :
  let (parts, rest) := split_events s in
  fold_right (fun p acc => p +:+ newline +:+ newline +:+ acc) rest parts = s
  /\ split_events rest = ([], rest).
Proof.
  pose proof (split_events_rest s) as Hrest.
  assert (Hjoin : fold_right (fun p acc => p +:+ newline +:+ newline +:+ acc)
                    (snd (split_events s)) (fst (split_events s)) = s).
  { clear. induction s as [|c|c c' s IHs IHc] using string_ind2; try reflexivity.
    change (split_events (String c (String c' s)))
      with (if is_newline c && is_newline c'
            then let (ps, r) := split_events s in (EmptyString :: ps, r)
            else cons_char c (split_events (String c' s))).
    destruct (is_newline c && is_newline c') eqn:Hsep.
    - apply andb_true_iff in Hsep as [Hc Hc'].
      apply Ascii.eqb_eq in Hc, Hc'. subst c c'.
      destruct (split_events s) as [ps r].
      exact (f_equal (fun x => String (Ascii.ascii_of_nat 10)
                                 (String (Ascii.ascii_of_nat 10) x)) IHs).
    - destruct (split_events (String c' s)) as [[|p ps] r];
        exact (f_equal (String c) IHc). }
  destruct (split_events s) as [parts rest]. simpl in *. split; [exact Hjoin|].
  pose proof (split_events_nil rest Hrest) as Hr.
  destruct (split_events rest) as [ps r]. simpl in *. now subst.
Qed.

Lemma delta_of_truthy obj j : delta_of obj = Some j -> truthy (Some j) = true.
Proof.
  unfold delta_of.
  set (content := optional _ _).
  destruct obj; try discriminate;
    (destruct (truthy content) eqn:E; [|discriminate]);
    intros ->; exact E.
Qed.

(** X3 (no empty delta).  Every delta handed to [onDelta] is truthy: never
    the empty string, [null], [false], 0 or [NaN], whatever the body holds
    and however it is chunked. *)
Theorem deltas_are_truthy chunks j :
  In j (fst (read_chunks EmptyString chunks)) -> truthy (Some j) = true.
Proof.
  rewrite read_chunks_joined by reflexivity.
  change (EmptyString +:+ Routes.joined chunks) with (Routes.joined chunks).
  unfold Stream.processBuffer.
  destruct (split_events (Routes.joined chunks)) as [parts rest]. simpl.
  intros Hin. apply list_elem_of_In, list_elem_of_omap in Hin as (part & _ & Hd).
  unfold Stream.part_delta in Hd.
  destruct (negb (String.prefix "data:" part)); [discriminate|].
  destruct (String.eqb _ "[DONE]"); [discriminate|].
  destruct (JSON_parse _) as [obj|]; [|discriminate].
  now apply delta_of_truthy in Hd.
Qed.

End StreamFacts.

(** ** Broadcast traces of a submission *)

Section TraceFacts.

Import Server Routes.

Variable uuidv4_draw : nat -> string.
Variable Date_now_read : nat -> Z.
Variable toISOString : Z -> string.
Variable JSON_stringify : payload -> string.
Variable String_trim : string -> string.
Variable ToString : json -> string.

Abbreviation deliver := (Server.deliver JSON_stringify).
Abbreviation deliver_all := (Routes.deliver_all JSON_stringify).
Abbreviation stored_question :=
  (Routes.stored_question uuidv4_draw Date_now_read toISOString String_trim).
Abbreviation opening :=
  (Routes.opening uuidv4_draw Date_now_read toISOString String_trim).
Abbreviation fallback_of :=
  (Routes.fallback_of uuidv4_draw Date_now_read toISOString ToString).
Abbreviation lines := (Routes.lines JSON_stringify).
Abbreviation broadcast := (Server.broadcast JSON_stringify).
Abbreviation on_delta := (Server.on_delta JSON_stringify).
Abbreviation groqVizJSON := (Server.groqVizJSON Date_now_read).
Abbreviation submission :=
  (Server.submission uuidv4_draw Date_now_read toISOString JSON_stringify String_trim).
Abbreviation fallback_handler :=
  (Server.fallback_handler uuidv4_draw Date_now_read toISOString JSON_stringify ToString).
Abbreviation post_questions :=
  (Server.post_questions uuidv4_draw Date_now_read toISOString JSON_stringify
     String_trim ToString).

Lemma deliver_all_app ps1 ps2 c :
  deliver_all (ps1 ++ ps2) c = deliver_all ps2 (deliver_all ps1 c).
Proof. unfold Routes.deliver_all. now rewrite fold_left_app. Qed.

Lemma map_deliver_all_nil (cs : list client) : map (deliver_all []) cs = cs.
Proof. induction cs as [|c cs IH]; [reflexivity|]. simpl. now rewrite IH. Qed.

Lemma map_deliver_all_app ps1 ps2 (cs : list client) :
  map (deliver_all ps2) (map (deliver_all ps1) cs) = map (deliver_all (ps1 ++ ps2)) cs.
Proof.
  rewrite map_map. apply map_ext. intros c. now rewrite deliver_all_app.
Qed.

Lemma deliver_throws event data c :
  throws (res (deliver event data c)) = throws (res c).
Proof.
  unfold Server.deliver, write.
  destruct (throws (res c) (attempts (res c))); simpl; [reflexivity|].
  destruct (throws (res c) (S (attempts (res c)))); reflexivity.
Qed.

(** A channel whose writes never throw receives the two lines of every
    broadcast, in order. *)
Lemma deliver_all_written ps :
  forall c,
    (forall n, throws (res c) n = false) ->
    written (res (deliver_all ps c)) = (written (res c) ++ flat_map lines ps)%list
    /\ client_id (deliver_all ps c) = client_id c.
Proof.
  induction ps as [|p ps IH]; intros c Hc.
  - simpl. now rewrite app_nil_r.
  - change (deliver_all (p :: ps) c) with (deliver_all ps (deliver (event_name p) p c)).
    destruct (IH (deliver (event_name p) p c)) as [Hw Hid].
    { intros n. rewrite deliver_throws. apply Hc. }
    rewrite Hw, Hid. split.
    + unfold Server.deliver, write. rewrite !Hc. simpl. rewrite Hc. simpl.
      now rewrite <- !app_assoc.
    + unfold Server.deliver, write. rewrite !Hc. reflexivity.
Qed.

(** The streaming loop: the text grows by each delta, and each delta is
    followed by one broadcast of the text so far. *)
Lemma readGroqStream_trace aid qid ds :
  forall acc w,
    readGroqStream (on_delta aid qid) acc ds w
    = (Ok (acc +:+ joined ds),
       with_clients (map (deliver_all (partials aid qid acc ds)) (clients w)) w).
Proof.
  induction ds as [|d ds IH]; intros acc w.
  - simpl. rewrite map_deliver_all_nil. unfold joined. simpl.
    rewrite StringFacts.append_nil_r. now destruct w.
  - simpl readGroqStream. unfold bind at 1, Server.on_delta at 1.
    unfold bind at 1. simpl. rewrite IH. f_equal.
    + unfold joined. simpl. now rewrite StringFacts.append_assoc.
    + unfold with_clients. simpl. f_equal. now rewrite map_map.
Qed.

Lemma groqStreamText_trace aid qid o w :
  groqStreamText o (on_delta aid qid) EmptyString w
  = (match stream_error o with
     | Some e => Throw e
     | None => Ok (joined (deltas o))
     end,
     with_clients
       (map (deliver_all (partials aid qid EmptyString (deltas o))) (clients w)) w).
Proof.
  unfold groqStreamText, bind. rewrite readGroqStream_trace.
  now destruct (stream_error o).
Qed.

Lemma or_compute_fresh_clients x w :
  clients (snd (or_compute x (fresh_vis_id Date_now_read) w)) = clients w.
Proof.
  unfold or_compute. destruct x as [j|]; [destruct (truthy (Some j))|]; reflexivity.
Qed.

Lemma groqVizJSON_clients o w : clients (snd (groqVizJSON o w)) = clients w.
Proof.
  destruct o as [e | [parsed|]]; try reflexivity.
  unfold Server.groqVizJSON, normalize.
  destruct parsed; try reflexivity; unfold bind;
    match goal with
    | |- context [or_compute ?x _ w] =>
        pose proof (or_compute_fresh_clients x w) as H;
        destruct (or_compute x (fresh_vis_id Date_now_read) w) as [[j|e] w']
    end; exact H.
Qed.

Lemma submission_trace body q gen w :
  accepted body q ->
  let qrec := stored_question body q w in
  exists r w1,
    submission body gen w = (r, w1)
    /\ questions w1 = (questions w ++ [qrec])%list
    /\ uuid_draws w1 = S (S (uuid_draws w))
    /\ (generation_throws gen = true ->
        (exists e, r = Throw e)
        /\ answers w1 = answers w
        /\ clients w1 = map (deliver_all (opening body q gen w)) (clients w))
    /\ (generation_throws gen = false ->
        exists vis ts,
          let ans :=
            {| answer_id := answerId qrec; text := joined (deltas (text_stream gen));
               answer_visualization := vis; answer_timestamp := ts |} in
          r = Ok (Json200 true (question_id qrec) (answerId qrec))
          /\ answers w1 = (answers w ++ [ans])%list
          /\ clients w1
             = map (deliver_all (opening body q gen w ++ [answer_created ans]))
                 (clients w)).
Proof.
  intros (Hu & Hq & Hne) qrec.
  assert (Hqt : truthy (Some (JString q)) = true).
  { simpl. apply negb_true_iff. now apply String.eqb_neq. }
  assert (Hopen : forall cs : list client,
            map (deliver_all (partials (answerId qrec) (question_id qrec) EmptyString
                                (deltas (text_stream gen))))
              (map (deliver "generation_started"
                      (generation_started (answerId qrec) (question_id qrec)))
                 (map (deliver "question_created" (question_created qrec)) cs))
            = map (deliver_all (opening body q gen w)) cs).
  { intros cs. rewrite !map_map. apply map_ext. intros c.
    unfold Routes.opening. fold qrec. now rewrite deliver_all_app. }
  unfold Server.submission. rewrite Hu, Hq, Hqt. simpl.
  do 7 (unfold bind at 1; simpl). unfold bind at 1.
  rewrite groqStreamText_trace.
  change (Build_question _ _ _ _ _) with qrec.
  unfold generation_throws, stream_throws.
  destruct (stream_error (text_stream gen)) as [e|].
  - do 2 eexists. split; [reflexivity|]. simpl.
    split; [reflexivity|]. split; [reflexivity|].
    split; intros H; [|discriminate]. split; [eauto|]. split; [reflexivity|].
    apply Hopen.
  - unfold bind at 1.
    match goal with
    | |- context [groqVizJSON ?o ?w0] =>
        destruct (groqVizJSON_run Date_now_read o w0)
          as (r2 & w2 & Hrun2 & (Hq2 & Ha2 & Hd2) & Hthrow2 & Hok2);
        pose proof (groqVizJSON_clients o w0) as Hc2
    end.
    rewrite Hrun2 in Hc2 |- *. simpl in Hq2, Ha2, Hd2, Hc2. simpl.
    destruct (viz_throws (viz gen)).
    + destruct Hthrow2 as [e ->]; [reflexivity|].
      do 2 eexists. split; [reflexivity|].
      split; [exact Hq2|]. split; [exact Hd2|].
      split; intros H; [|discriminate]. split; [eauto|]. split; [exact Ha2|].
      rewrite Hc2. apply Hopen.
    + destruct Hok2 as [vis ->]; [reflexivity|].
      do 2 eexists. split; [reflexivity|]. simpl.
      split; [exact Hq2|]. split; [exact Hd2|].
      split; intros H; [discriminate|].
      exists vis, (toISOString (Date_now_read (clock_reads w2))).
      split; [reflexivity|]. split; [now rewrite Ha2|].
      rewrite Hc2, Hopen.
      change (map (deliver "answer_created" ?p) ?l)
        with (map (deliver_all [p]) l).
      apply map_deliver_all_app.
Qed.

(** The [catch] block: one answer appended, one broadcast. *)
Lemma fallback_handler_trace body w :
  exists w',
    fallback_handler body w
    = (Ok (Json200 true ("q_" +:+ uuidv4_draw (S (uuid_draws w)))
             (answer_id (fallback_of body w))), w')
    /\ questions w' = questions w
    /\ answers w' = (answers w ++ [fallback_of body w])%list
    /\ clients w' = map (deliver_all [answer_created (fallback_of body w)]) (clients w).
Proof.
  unfold Server.fallback_handler, new_Date_toISOString.
  repeat (unfold bind at 1; simpl).
  eexists. split; [reflexivity|]. repeat split.
Qed.

Lemma rejected_outcome body gen w :
  truthy (member "userId" body) && truthy (member "question" body) = false ->
  post_questions body gen w = (Ok (Status400 "Missing userId or question"), w).
Proof.
  intros H. unfold Server.post_questions, try_catch, Server.submission.
  rewrite <- negb_andb, H. reflexivity.
Qed.

(** An accepted submission: the response, the records added and the
    broadcasts, on both paths. *)
Lemma accepted_outcome body q gen w :
  accepted body q ->
  let qrec := stored_question body q w in
  exists r w' a,
    post_questions body gen w = (Ok r, w')
    /\ questions w' = (questions w ++ [qrec])%list
    /\ answers w' = (answers w ++ [a])%list
    /\ clients w'
       = map (deliver_all (opening body q gen w ++ [answer_created a])) (clients w)
    /\ (generation_throws gen = false ->
        r = Json200 true (question_id qrec) (answerId qrec)
        /\ answer_id a = answerId qrec
        /\ text a = joined (deltas (text_stream gen)))
    /\ (generation_throws gen = true ->
        exists w1,
          uuid_draws w1 = S (S (uuid_draws w))
          /\ a = fallback_of body w1
          /\ r = Json200 true ("q_" +:+ uuidv4_draw (S (S (S (uuid_draws w)))))
                   (answer_id a)).
Proof.
  intros Hacc qrec.
  destruct (submission_trace body q gen w Hacc)
    as (r & w1 & Hrun & Hqs & Hdraws & Hfail & Hsucc).
  unfold Server.post_questions, try_catch. rewrite Hrun.
  destruct (generation_throws gen).
  - destruct Hfail as ([e ->] & Ha & Hc); [reflexivity|].
    destruct (fallback_handler_trace body w1) as (w' & Hfb & Hqs' & Hans & Hcs).
    rewrite Hfb. do 3 eexists. split; [reflexivity|].
    split; [now rewrite Hqs'|]. split; [now rewrite Hans, Ha|].
    split; [rewrite Hcs, Hc; apply map_deliver_all_app|].
    split; intros H; [discriminate|].
    exists w1. split; [exact Hdraws|]. split; [reflexivity|]. now rewrite Hdraws.
  - destruct Hsucc as (vis & ts & -> & Ha & Hc); [reflexivity|].
    do 3 eexists. split; [reflexivity|].
    split; [exact Hqs|]. split; [exact Ha|]. split; [exact Hc|].
    split; intros H; [|discriminate]. repeat split.
Qed.

(** A question that is truthy but not a string: [question.trim()] throws
    before anything is stored or broadcast. *)
Lemma non_string_outcome body j gen w :
  truthy (member "userId" body) = true ->
  member "question" body = Some j ->
  truthy (Some j) = true ->
  (forall s, j <> JString s) ->
  let a := fallback_of body (after_draws 2 w) in
  exists w',
    post_questions body gen w
    = (Ok (Json200 true ("q_" +:+ uuidv4_draw (S (S (S (uuid_draws w)))))
             (answer_id a)), w')
    /\ questions w' = questions w
    /\ answers w' = (answers w ++ [a])%list
    /\ clients w' = map (deliver_all [answer_created a]) (clients w).
Proof.
  intros Hu Hq Hj Hns a.
  assert (Hrun : submission body gen w = (Throw TypeError, after_draws 2 w)).
  { unfold Server.submission. rewrite Hu, Hq, Hj. simpl.
    do 2 (unfold bind at 1; simpl). unfold bind at 1.
    destruct j; try reflexivity. now destruct (Hns s). }
  unfold Server.post_questions, try_catch. rewrite Hrun.
  destruct (fallback_handler_trace body (after_draws 2 w)) as (w' & Hfb & Hqs & Hans & Hcs).
  rewrite Hfb. exists w'. repeat split; assumption.
Qed.

Lemma find_app_last {A} (f : A -> bool) (l : list A) (a : A) :
  f a = true -> exists b, find f (l ++ [a]) = Some b /\ f b = true.
Proof.
  intros Ha. induction l as [|x l IH]; simpl.
  - rewrite Ha. eauto.
  - destruct (f x) eqn:Hx; eauto.
Qed.

Lemma find_app_none {A} (f : A -> bool) (l : list A) (a : A) :
  (forall x, In x l -> f x = false) -> f a = false -> find f (l ++ [a]) = None.
Proof.
  intros Hl Ha. induction l as [|x l IH]; simpl.
  - now rewrite Ha.
  - rewrite (Hl x (or_introl eq_refl)). apply IH. intros y Hy. apply Hl. now right.
Qed.

Lemma find_app_fresh {A} (f : A -> bool) (l : list A) (a : A) :
  (forall x, In x l -> f x = false) -> f a = true -> find f (l ++ [a]) = Some a.
Proof.
  intros Hl Ha. induction l as [|x l IH]; simpl.
  - now rewrite Ha.
  - rewrite (Hl x (or_introl eq_refl)). apply IH. intros y Hy. apply Hl. now right.
Qed.

(** X4 (events in order).  For an accepted submission, a subscriber whose
    writes never throw has received, when the response is sent, exactly the
    lines of: [question_created], [generation_started], one [answer_partial]
    per delta, each with all the text so far, and [answer_created] with the
    answer this request appended to the store, in this order, whether the
    generation succeeded or not. *)
Theorem subscriber_sees_events_in_order body q gen w i c :
  accepted body q ->
  clients w !! i = Some c ->
  (forall n, throws (res c) n = false) ->
  exists r w' a c',
    post_questions body gen w = (Ok r, w')
    /\ answers w' = (answers w ++ [a])%list
    /\ clients w' !! i = Some c'
    /\ client_id c' = client_id c
    /\ written (res c')
       = (written (res c)
          ++ flat_map lines (opening body q gen w ++ [answer_created a]))%list.
Proof.
  intros Hacc Hi Hc.
  destruct (accepted_outcome body q gen w Hacc)
    as (r & w' & a & Hrun & _ & Hans & Hcs & _).
  exists r, w', a, (deliver_all (opening body q gen w ++ [answer_created a]) c).
  split; [exact Hrun|]. split; [exact Hans|].
  split; [rewrite Hcs, list_lookup_fmap, Hi; reflexivity|].
  destruct (deliver_all_written (opening body q gen w ++ [answer_created a]) c Hc)
    as [Hw Hid].
  split; [exact Hid | exact Hw].
Qed.





Lemma post_questions_outcome_answer body gen w :
  exists r w',
    post_questions body gen w = (Ok r, w')
    /\ ((r = Status400 "Missing userId or question" /\ w' = w)
        \/ exists questionId a,
             r = Json200 true questionId (answer_id a)
             /\ answers w' = (answers w ++ [a])%list).
Proof.
  destruct (truthy (member "userId" body) && truthy (member "question" body)) eqn:Hboth.
  - apply andb_true_iff in Hboth as [Hu Hq].
    destruct (member "question" body) as [j|] eqn:Hj; [|discriminate].
    assert (Hcases : (exists s, j = JString s) \/ forall s, j <> JString s).
    { destruct j; try (right; discriminate). left. eauto. }
    destruct Hcases as [[s ->] | Hns].
    + assert (Hacc : accepted body s).
      { repeat split; try assumption. intros ->. discriminate. }
      destruct (accepted_outcome body s gen w Hacc)
        as (r & w' & a & Hrun & Hqs & Hans & _ & Hsucc & Hfail).
      exists r, w'. split; [exact Hrun|]. right.
      destruct (generation_throws gen).
      * destruct Hfail as (w1 & _ & _ & ->); [reflexivity|]. eauto.
      * destruct Hsucc as (-> & Hid & _); [reflexivity|].
        do 2 eexists. rewrite <- Hid. eauto.
    + destruct (non_string_outcome body j gen w Hu Hj Hq Hns) as (w' & Hrun & Hqs & Hans & _).
      do 2 eexists. split; [exact Hrun|]. right. eauto.
  - exists (Status400 "Missing userId or question"), w.
    split; [now apply rejected_outcome|]. now left.
Qed.

(** X8 (the returned answer id).  Whenever the submission handler responds
    with an answer id, [GET /api/answers/:id] with that id finds an answer
    with that id in the store the handler left. *)
Theorem returned_answer_can_be_fetched body gen w ok questionId aid w' :
  post_questions body gen w = (Ok (Json200 ok questionId aid), w') ->
  exists a, get_answer aid w' = AnswerFound a /\ answer_id a = aid.
Proof.
  intros Hrun.
  destruct (post_questions_outcome_answer body gen w) as (r & w0 & Hrun0 & Hcases).
  rewrite Hrun in Hrun0. injection Hrun0 as <- <-.
  destruct Hcases as [[Hr _] | (qid & a & Hr & Hans)]; [discriminate|].
  injection Hr as _ _ ->.
  destruct (find_app_last (fun x => String.eqb (answer_id x) (answer_id a)) (answers w) a)
    as (b & Hfind & Hb); [apply String.eqb_refl|].
  exists b. unfold get_answer. rewrite Hans, Hfind.
  split; [reflexivity|]. now apply String.eqb_eq.
Qed.

(** X9 (history lookup).  The front end reloads history by fetching
    [/api/answers/<q.answerId>] for every stored question.  After an accepted
    submission whose generation succeeded this finds the answer with the
    streamed text; after one whose generation threw it is a 404, because the
    fallback answer was stored under another id (the ids drawn being
    distinct, and no older answer having the question's [answerId]). *)
Theorem history_lookup_by_question body q gen w :
  accepted body q ->
  let qrec := stored_question body q w in
  (forall a, In a (answers w) -> answer_id a <> answerId qrec) ->
  exists r w',
    post_questions body gen w = (Ok r, w')
    /\ (generation_throws gen = false ->
        exists a, get_answer (answerId qrec) w' = AnswerFound a
                  /\ text a = joined (deltas (text_stream gen)))
    /\ (generation_throws gen = true ->
        uuidv4_draw (2 + uuid_draws w) <> uuidv4_draw (1 + uuid_draws w) ->
        get_answer (answerId qrec) w' = AnswerNotFound).
Proof.
  intros Hacc qrec Hfresh.
  assert (Hold : forall x, In x (answers w) ->
                   String.eqb (answer_id x) (answerId qrec) = false).
  { intros x Hx. apply String.eqb_neq. now apply Hfresh. }
  destruct (accepted_outcome body q gen w Hacc)
    as (r & w' & a & Hrun & _ & Hans & _ & Hsucc & Hfail).
  exists r, w'. split; [exact Hrun|]. split; intros Hgen.
  - destruct (Hsucc Hgen) as (_ & Hid & Htext).
    exists a. split; [|exact Htext].
    unfold get_answer. rewrite Hans, find_app_fresh; [reflexivity | exact Hold |].
    rewrite Hid. apply String.eqb_refl.
  - intros Hne. destruct (Hfail Hgen) as (w1 & Hdraws & -> & _).
    unfold get_answer. rewrite Hans, find_app_none; [reflexivity | exact Hold |].
    apply String.eqb_neq. simpl. rewrite Hdraws.
    now apply prefixed_ne.
Qed.

End TraceFacts.

(** ** Subscribing to the event stream *)

Section SubscriptionFacts.

Import Server Routes.

Variable uuidv4_draw : nat -> string.
Variable Date_now_read : nat -> Z.
Variable stringify_connected : string -> Z -> string.

Abbreviation subscribe := (Routes.subscribe uuidv4_draw Date_now_read stringify_connected).
Abbreviation connected_line := (Routes.connected_line stringify_connected).

Lemma remove_first_absent id (cs : list client) :
  (forall c, In c cs -> client_id c <> id) -> remove_first id cs = cs.
Proof.
  induction cs as [|c cs IH]; intros H; [reflexivity|]. simpl.
  assert (Hc : String.eqb (client_id c) id = false).
  { apply String.eqb_neq, H. now left. }
  rewrite Hc, IH; [reflexivity|]. intros x Hx. apply H. now right.
Qed.

Lemma remove_first_found id (pre : list client) c post :
  (forall x, In x pre -> client_id x <> id) ->
  client_id c = id ->
  remove_first id (pre ++ c :: post) = (pre ++ post)%list.
Proof.
  intros Hpre Hc. induction pre as [|x pre IH]; simpl.
  - now rewrite Hc, String.eqb_refl.
  - assert (Hx : String.eqb (client_id x) id = false).
    { apply String.eqb_neq, Hpre. now left. }
    rewrite Hx, IH; [reflexivity|]. intros y Hy. apply Hpre. now right.
Qed.

(** X10 (closing a subscription).  The [close] listener never throws and
    touches nothing but the subscriber list: it removes the first client
    registered under the id and keeps all others in order; when no client has
    the id the list is unchanged. *)
Theorem unsubscribe_removes_that_client id w :
  exists w',
    unsubscribe id w = (Ok tt, w')
    /\ questions w' = questions w
    /\ answers w' = answers w
    /\ ((forall c, In c (clients w) -> client_id c <> id) -> clients w' = clients w)
    /\ (forall pre c post,
          clients w = (pre ++ c :: post)%list ->
          (forall x, In x pre -> client_id x <> id) ->
          client_id c = id ->
          clients w' = (pre ++ post)%list).
Proof.
  eexists. split; [reflexivity|]. simpl. repeat split.
  - apply remove_first_absent.
  - intros pre c post -> Hpre Hc. now apply remove_first_found.
Qed.

Lemma remove_first_removes id (cs : list client) :
  NoDup (map client_id cs) ->
  forall c, In c (remove_first id cs) -> client_id c <> id.
Proof.
  induction cs as [|x cs IH]; intros Hnd c Hc; [destruct Hc|].
  simpl in Hnd. apply NoDup_cons in Hnd as [Hx Hnd]. simpl in Hc.
  destruct (String.eqb (client_id x) id) eqn:E.
  - apply String.eqb_eq in E. subst id. intros Heq. apply Hx.
    rewrite <- Heq. apply list_elem_of_In, in_map, Hc.
  - destruct Hc as [<- | Hc]; [now apply String.eqb_neq|]. now apply IH.
Qed.

(** X11 (closing twice).  When the registered client ids are pairwise
    distinct, a second [close] for the same id changes nothing. *)
Theorem double_unsubscribe_is_a_no_op id w :
  NoDup (map client_id (clients w)) ->
  (unsubscribe id ;;; unsubscribe id) w = unsubscribe id w.
Proof.
  intros Hnd. unfold bind, unsubscribe, with_clients. simpl.
  rewrite (remove_first_absent id (remove_first id (clients w))); [reflexivity|].
  now apply remove_first_removes.
Qed.

Lemma subscribe_registers_the_client_aux r w :
  exists r',
    clients (snd (subscribe r w))
    = (clients w ++ [{| client_id := uuidv4_draw (uuid_draws w); res := r' |}])%list.
Proof.
  unfold Routes.subscribe, write. unfold bind at 1. simpl.
  destruct (throws r (attempts r)).
  - eexists. reflexivity.
  - unfold bind at 1. simpl.
    destruct (throws r (S (attempts r))); eexists; reflexivity.
Qed.

(** X12 (a new subscriber).  The client is registered under a freshly drawn
    id whether or not the two writes of the [connected] event go through; the
    handler completes exactly when neither write throws, and then the stream
    has received the event line and the data line carrying the id and the
    time.  Records and other subscribers are untouched. *)
Theorem subscribe_registers_the_client r w :
  let id := uuidv4_draw (uuid_draws w) in
  exists result w' r',
    subscribe r w = (result, w')
    /\ questions w' = questions w
    /\ answers w' = answers w
    /\ clients w' = (clients w ++ [{| client_id := id; res := r' |}])%list
    /\ attempts r < attempts r'
    /\ (throws r (attempts r) = false /\ throws r (S (attempts r)) = false ->
        result = Ok id
        /\ written r'
           = (written r ++ [event_line "connected";
                            connected_line id (Date_now_read (clock_reads w))])%list)
    /\ (throws r (attempts r) = true \/ throws r (S (attempts r)) = true ->
        exists e, result = Throw e).
Proof.
  intros id. subst id. unfold Routes.subscribe, write.
  unfold bind at 1. simpl.
  destruct (throws r (attempts r)) eqn:H1.
  - do 3 eexists. split; [reflexivity|]. simpl.
    do 3 (split; [reflexivity|]). split; [simpl; lia|]. split.
    + intros [? _]. discriminate.
    + intros _. eauto.
  - unfold bind at 1. simpl.
    destruct (throws r (S (attempts r))) eqn:H2.
    + do 3 eexists. split; [reflexivity|]. simpl.
      do 3 (split; [reflexivity|]). split; [simpl; lia|]. split.
      * intros [_ ?]. discriminate.
      * intros _. eauto.
    + do 3 eexists. split; [reflexivity|]. simpl.
      do 3 (split; [reflexivity|]). split; [simpl; lia|]. split.
      * intros _. split; [reflexivity|]. now rewrite <- app_assoc.
      * intros [?|?]; discriminate.
Qed.

Lemma subscribe_ok_id r w id w1 :
  subscribe r w = (Ok id, w1) -> id = uuidv4_draw (uuid_draws w).
Proof.
  unfold Routes.subscribe, write. unfold bind at 1. simpl.
  destruct (throws r (attempts r)); [discriminate|].
  unfold bind at 1. simpl.
  destruct (throws r (S (attempts r))); [discriminate|].
  now intros [= <- _].
Qed.

(** X13 (subscribe, then close).  When a subscription was set up and the id
    drawn for it was not in use, its [close] listener gives back the
    subscriber list as it was before the subscription. *)
Theorem subscribe_then_unsubscribe r w id w1 :
  subscribe r w = (Ok id, w1) ->
  (forall c, In c (clients w) -> client_id c <> id) ->
  clients (snd (unsubscribe id w1)) = clients w.
Proof.
  intros Hsub Hfresh.
  pose proof (subscribe_ok_id r w id w1 Hsub) as ->.
  destruct (subscribe_registers_the_client_aux r w) as (r' & Hcs).
  rewrite Hsub in Hcs. simpl in Hcs. simpl. rewrite Hcs.
  rewrite (remove_first_found _ (clients w) _ []); auto using app_nil_r.
Qed.

End SubscriptionFacts.

(** ** Replies of the scene request that are not a scene *)

Section SceneReplyFacts.

Import Server.

Variable Date_now_read : nat -> Z.

Abbreviation groqVizJSON := (Server.groqVizJSON Date_now_read).

(** X22 (replies that are not an object).  When the content of the scene
    reply cannot be parsed, [groqVizJSON] returns the default visualization
    (a fresh [vis_] id, 8000, 30, no layers).  When it parses to [null], a
    boolean, a number or a string, [groqVizJSON] throws a [TypeError], and the
    store is left as it was. *)
Theorem scene_replies_that_are_not_objects w :
  (exists w',
     groqVizJSON (VizContent None) w
     = (Ok {| vis_id := JString ("vis_" +:+ pretty (Date_now_read (clock_reads w)));
              duration := JNumber 8000%float; fps := JNumber 30%float;
              layers := [] |}, w')
     /\ questions w' = questions w /\ answers w' = answers w
     /\ clients w' = clients w)
  /\ (forall parsed,
        match parsed with
        | JObject _ | JArray _ => False
        | _ => True
        end ->
        exists w',
          groqVizJSON (VizContent (Some parsed)) w = (Throw TypeError, w')
          /\ questions w' = questions w /\ answers w' = answers w
          /\ clients w' = clients w).
Proof.
  split.
  - eexists. split; [reflexivity|]. repeat split.
  - intros parsed Hp.
    destruct parsed; try destruct Hp; eexists; (split; [reflexivity|]); repeat split.
Qed.

End SceneReplyFacts.

(** ** More facts about binary64 comparisons *)

Module FloatOrder.

Lemma le_nan_l (x : float) : Num.le nan x = false.
Proof. unfold Num.le. now rewrite leb_spec. Qed.

Lemma le_nan_r (x : float) : Num.le x nan = false.
Proof.
  unfold Num.le. rewrite leb_spec. change (Prim2SF nan) with S754_nan.
  now destruct (Prim2SF x).
Qed.

Lemma gt_nan_l (x : float) : Num.gt nan x = false.
Proof.
  unfold Num.gt. rewrite ltb_spec. change (Prim2SF nan) with S754_nan.
  now destruct (Prim2SF x).
Qed.

Lemma lt_le (a b : float) : (a <? b)%float = true -> (a <=? b)%float = true.
Proof.
  rewrite ltb_spec, leb_spec. unfold SFltb, SFleb.
  now destruct (SFcompare (Prim2SF a) (Prim2SF b)) as [[]|].
Qed.

Lemma SFcompare_Gt_Lt (x y : spec_float) :
  SFcompare x y = Some Gt -> SFcompare y x = Some Lt.
Proof.
  destruct x as [sx|sx| |sx mx ex], y as [sy|sy| |sy my ey]; simpl;
    try destruct sx; try destruct sy; try congruence;
    rewrite (Z.compare_antisym ex ey);
    change (PosDef.Pos.compare_cont Eq my mx)
      with (Pos.compare_cont (CompOpp Eq) my mx);
    rewrite <- (Pos.compare_cont_antisym mx my Eq);
    destruct (ex ?= ey)%Z; simpl; try congruence;
    destruct (PosDef.Pos.compare_cont Eq mx my); simpl; congruence.
Qed.

Lemma not_nan_compare (a b : float) :
  is_nan a = false -> is_nan b = false ->
  exists c, SFcompare (Prim2SF a) (Prim2SF b) = Some c.
Proof.
  unfold is_nan. rewrite !FloatAxioms.eqb_spec. unfold SFeqb.
  destruct (Prim2SF a), (Prim2SF b); simpl; try discriminate; eauto.
Qed.

(** Between numbers, [a < b] or [b <= a]. *)
Lemma lt_or_ge (a b : float) :
  is_nan a = false -> is_nan b = false ->
  (a <? b)%float = false -> (b <=? a)%float = true.
Proof.
  intros Ha Hb. destruct (not_nan_compare b a Hb Ha) as [c Hc].
  rewrite ltb_spec, leb_spec. unfold SFltb, SFleb. rewrite Hc.
  destruct c; try reflexivity.
  apply SFcompare_Gt_Lt in Hc. rewrite Hc. discriminate.
Qed.

(** An absolute value is never below zero. *)
Lemma abs_not_negative (x : float) : (abs x <? 0)%float = false.
Proof.
  rewrite ltb_spec, abs_spec. change (Prim2SF 0) with (S754_zero false).
  now destruct (Prim2SF x).
Qed.

End FloatOrder.

(** ** More on the timeline evaluator *)

Section TimelineFacts.

Import Player.

Variable Math_pow : float -> float -> float.
Variable Math_cos : float -> float.
Variable Math_sin : float -> float.

Abbreviation apply_animation := (Player.apply_animation Math_pow Math_cos Math_sin).
Abbreviation apply_animations := (Player.apply_animations Math_pow Math_cos Math_sin).
Abbreviation resolve_layer := (Player.resolve_layer Math_pow Math_cos Math_sin).
Abbreviation drawVisualization := (Player.drawVisualization Math_pow Math_cos Math_sin).

Lemma apply_animation_nan_time dur (bag : gmap string value) anim :
  apply_animation dur nan bag anim = bag.
Proof.
  unfold Player.apply_animation, active, past_end, Num.ge.
  fold (Num.le (window_start anim) nan).
  now rewrite FloatOrder.le_nan_r, FloatOrder.gt_nan_l.
Qed.

Lemma apply_animations_nan_time dur anims :
  forall bag : gmap string value, apply_animations dur nan bag anims = bag.
Proof.
  induction anims as [|a anims IH]; intros bag; [reflexivity|].
  change (apply_animations dur nan (apply_animation dur nan bag a) anims = bag).
  now rewrite apply_animation_nan_time.
Qed.

(** X14 (no duration).  When the visualization's duration is missing (or
    [NaN]), [currentTime] is [NaN], no animation is active or past its end,
    and at every progress each layer is drawn with its base props. *)
Theorem missing_duration_gives_static_frame v progress ls :
  to_number (duration v) = nan ->
  layers v = Some ls ->
  drawVisualization v progress = map (fun l => (type l, default ∅ (props l))) ls.
Proof.
  intros Hd Hl. unfold Player.drawVisualization. rewrite Hl, Hd.
  rewrite FloatFacts.mul_nan_r. apply map_ext. intros l.
  unfold Player.resolve_layer. destruct (animations l); [|reflexivity].
  now rewrite apply_animations_nan_time.
Qed.

(** X15 (untouched props).  A property that no animation of the layer
    targets (by name, or as [x] or [y] of an orbit) reaches the renderer with
    its base value, at every progress. *)
Theorem untargeted_properties_pass_through v progress ls i l k :
  layers v = Some ls ->
  ls !! i = Some l ->
  (forall anims, animations l = Some anims ->
                 forallb (fun a => negb (targets a k)) anims = true) ->
  exists bag,
    drawVisualization v progress !! i = Some (type l, bag)
    /\ bag !! k = default ∅ (props l) !! k.
Proof.
  intros Hl Hi Hk. unfold Player.drawVisualization. rewrite Hl. cbv zeta.
  exists (resolve_layer (duration v) (progress * to_number (duration v))%float l).
  split.
  - unfold frame. rewrite list_lookup_fmap, Hi. reflexivity.
  - unfold Player.resolve_layer. destruct (animations l) as [anims|]; [|reflexivity].
    apply apply_animations_other. now apply Hk.
Qed.

(** X16 (before the start).  While [currentTime < start], an animation
    whose end is not already past leaves the props alone; but when its
    window is inverted, so that [currentTime > end] as well, a non-orbit
    property is frozen at [to] before the animation ever started. *)
Theorem before_start dur ct (bag : gmap string value) anim :
  Num.lt ct (window_start anim) = true ->
  (past_end dur ct anim = false -> apply_animation dur ct bag anim = bag)
  /\ (past_end dur ct anim = true -> property anim <> "orbit" ->
      apply_animation dur ct bag anim !! property anim = Some (field_value (to anim))).
Proof.
  intros Hlt.
  assert (Hact : active dur ct anim = false).
  { unfold active, Num.ge. fold (Num.le (window_start anim) ct).
    now rewrite (FloatFacts.gt_not_le (window_start anim) ct Hlt). }
  split.
  - intros Hp. unfold Player.apply_animation. now rewrite Hact, Hp.
  - intros Hp Hk. rewrite apply_animation_past_end_freeze by assumption.
    apply lookup_insert_eq.
Qed.

End TimelineFacts.

(** ** The front end's state *)

Section ClientFacts.

Import Server Client.

Lemma add_question_ids q (qs : list question) :
  NoDup (map question_id qs) -> NoDup (map question_id (add_question q qs)).
Proof.
  intros Hnd. unfold add_question.
  destruct (existsb _ qs) eqn:E; [exact Hnd|].
  rewrite map_app. simpl. apply NoDup_app. split; [exact Hnd|]. split.
  - intros x Hx Hq. apply list_elem_of_singleton in Hq. subst x.
    apply list_elem_of_In, in_map_iff in Hx as (y & Hy & Hin).
    assert (existsb (fun x => String.eqb (question_id x) (question_id q)) qs = true);
      [|congruence].
    apply existsb_exists. exists y. split; [exact Hin|]. now apply String.eqb_eq.
  - apply NoDup_singleton.
Qed.

Lemma handle_ids s p :
  NoDup (map question_id (questions s)) -> NoDup (map question_id (questions (handle s p))).
Proof. destruct p; simpl; auto using add_question_ids. Qed.

(** X17 (no question twice).  Whatever events arrive and in whatever order,
    the question list never holds two questions with one id; a
    [question_created] for a question already listed changes nothing, so
    receiving an event twice is harmless. *)
Theorem questions_are_never_duplicated s ps :
  NoDup (map question_id (questions s)) ->
  NoDup (map question_id (questions (handle_all s ps)))
  /\ forall q, handle (handle s (question_created q)) (question_created q)
               = handle s (question_created q).
Proof.
  intros Hnd. split.
  - unfold handle_all. revert s Hnd.
    induction ps as [|p ps IH]; intros s Hnd; [exact Hnd|].
    simpl. apply IH. now apply handle_ids.
  - intros q. simpl. f_equal. unfold add_question.
    destruct (existsb _ (questions s)) eqn:E; [now rewrite E|].
    rewrite existsb_app. simpl. now rewrite String.eqb_refl, orb_true_r.
Qed.

(** The entry a run of partials leaves under their id. *)
Lemma handle_partials aid qid ds :
  forall acc s,
    let s' := handle_all s (Routes.partials aid qid acc ds) in
    questions s' = questions s
    /\ (forall k, k <> aid -> answers s' !! k = answers s !! k)
    /\ answers s' !! aid
       = match ds with
         | [] => answers s !! aid
         | _ => Some {| entry_id := aid; entry_text := acc +:+ Routes.joined ds;
                        entry_visualization := answers s !! aid ≫= entry_visualization;
                        entry_timestamp := None |}
         end.
Proof.
  induction ds as [|d ds IH]; intros acc s; [repeat split|].
  change (handle_all s (Routes.partials aid qid acc (d :: ds)))
    with (handle_all (handle s (answer_partial aid (acc +:+ d) qid))
            (Routes.partials aid qid (acc +:+ d) ds)).
  destruct (IH (acc +:+ d) (handle s (answer_partial aid (acc +:+ d) qid)))
    as (Hq & Hother & Hat).
  cbv zeta in *. split; [exact Hq|]. split.
  - intros k Hk. rewrite Hother by exact Hk. simpl. now rewrite lookup_insert_ne.
  - rewrite Hat. simpl answers. rewrite lookup_insert_eq.
    destruct ds as [|d' ds].
    + unfold partial_entry, Routes.joined. simpl.
      now rewrite StringFacts.append_nil_r.
    + assert (Ht : (acc +:+ d) +:+ Routes.joined (d' :: ds)
                   = acc +:+ Routes.joined (d :: d' :: ds)).
      { change (Routes.joined (d :: d' :: ds)) with (d +:+ Routes.joined (d' :: ds)).
        now rewrite StringFacts.append_assoc. }
      rewrite Ht. reflexivity.
Qed.

(** X18 (the front end after a submission).  After the events of one
    submission ([question_created], [generation_started], the partials of the
    deltas, [answer_created]) the created answer is selected and playing and
    is kept under its own id, and the question is listed.  When the created
    answer has another id than the one the partials were sent under (the
    fallback), the entry under that first id is what the last partial left:
    the streamed text without timestamp, or nothing new when no delta
    arrived. *)
Theorem client_after_submission_events s q aid qid ds a :
  let s' :=
    handle_all s
      ([question_created q; generation_started aid qid]
         ++ Routes.partials aid qid EmptyString ds ++ [answer_created a]) in
  selectedAnswer s' = Some (of_answer a)
  /\ isGenerating s' = false
  /\ isPlaying s' = true
  /\ answers s' !! answer_id a = Some (of_answer a)
  /\ (answer_id a <> aid ->
      answers s' !! aid
      = match ds with
        | [] => answers s !! aid
        | _ => Some {| entry_id := aid; entry_text := Routes.joined ds;
                       entry_visualization := answers s !! aid ≫= entry_visualization;
                       entry_timestamp := None |}
        end)
  /\ (exists x, In x (questions s') /\ question_id x = question_id q).
Proof.
  intros s'. subst s'. unfold handle_all.
  change (fold_left handle
            ([question_created q; generation_started aid qid]
               ++ Routes.partials aid qid EmptyString ds ++ [answer_created a]) s)
    with (fold_left handle (Routes.partials aid qid EmptyString ds ++ [answer_created a])
            (handle (handle s (question_created q)) (generation_started aid qid))).
  rewrite fold_left_app.
  set (s0 := handle (handle s (question_created q)) (generation_started aid qid)).
  destruct (handle_partials aid qid ds EmptyString s0) as (Hq & Hother & Hat).
  cbv zeta in *. unfold handle_all in *.
  set (s1 := fold_left handle (Routes.partials aid qid EmptyString ds) s0) in *.
  change (fold_left handle [answer_created a] s1) with (handle s1 (answer_created a)).
  simpl. do 3 (split; [reflexivity|]). split; [apply lookup_insert_eq|]. split.
  - intros Hne. rewrite lookup_insert_ne by exact Hne. exact Hat.
  - rewrite Hq. simpl. unfold add_question.
    destruct (existsb _ (questions s)) eqn:E.
    + apply existsb_exists in E as (x & Hx & Heq). exists x. split; [exact Hx|].
      now apply String.eqb_eq.
    + exists q. split; [|reflexivity]. apply in_or_app. right. now left.
Qed.

End ClientFacts.

(** ** Drawing a layer *)

Section RendererFacts.

Import Player Renderer.

Variable StringToNumber : string -> float.
Variable NumberToString : float -> string.
Variable Math_atan2 : float -> float -> float.
Variable Math_cos : float -> float.
Variable Math_sin : float -> float.

Abbreviation shape :=
  (Renderer.shape StringToNumber NumberToString Math_atan2 Math_cos Math_sin).
Abbreviation drawLayer :=
  (Renderer.drawLayer StringToNumber NumberToString Math_atan2 Math_cos Math_sin).
Abbreviation draw_resolved :=
  (Renderer.draw_resolved StringToNumber NumberToString Math_atan2 Math_cos Math_sin).

Lemma shape_inner ty (bag : gmap string value) : Forall inner (shape ty bag).
Proof.
  unfold Renderer.shape, drawArrow, stroke_setup.
  repeat case_match;
    repeat (apply Forall_app; split);
    repeat (apply Forall_cons; split);
    try apply Forall_nil; split; discriminate.
Qed.

(** X19 (save and restore).  For every shape kind and every props,
    [drawLayer] makes its calls between one [save] and one [restore]; for a
    kind it does not know it makes no other call. *)
Theorem drawLayer_saves_and_restores ty (bag : gmap string value) :
  exists body,
    drawLayer ty bag = (save :: body ++ [restore])%list
    /\ Forall inner body
    /\ (known ty = false -> body = []).
Proof.
  exists (shape ty bag). split; [reflexivity|]. split; [apply shape_inner|].
  unfold known, Renderer.shape. intros H.
  repeat (apply orb_false_iff in H as [H ?]).
  repeat match goal with Hx : String.eqb _ _ = false |- _ => rewrite Hx; clear Hx end.
  reflexivity.
Qed.

(** X20 (the radius of a circle).  Every [arc] call of [drawLayer] is a
    full turn from angle 0 whose radius is not negative (it may be [NaN]), so
    the call cannot throw. *)
Theorem arc_radius_is_not_negative ty (bag : gmap string value) x y r a0 a1 :
  In (arc x y r a0 a1) (drawLayer ty bag) ->
  (r <? 0)%float = false /\ a0 = 0%float /\ a1 = (2 * Num.PI)%float.
Proof.
  unfold Renderer.drawLayer, Renderer.shape, drawArrow, stroke_setup.
  intros Hin. apply in_app_or in Hin as [Hin | Hin];
    [destruct Hin as [Hin|[]]; discriminate|].
  apply in_app_or in Hin as [Hin | Hin];
    [|destruct Hin as [Hin|[]]; discriminate].
  repeat case_match; simpl in Hin;
    repeat match goal with
           | H : _ \/ _ |- _ => destruct H as [H | H]
           | H : In _ (_ ++ _) |- _ => apply in_app_or in H
           | H : In _ (_ :: _) |- _ => destruct H as [H | H]
           | H : In _ [] |- _ => destruct H
           | H : False |- _ => destruct H
           | H : ?c = arc _ _ _ _ _ |- _ => first [discriminate H | injection H as <- <- <- <- <-]
           end;
    (split; [apply FloatOrder.abs_not_negative | split; reflexivity]).
Qed.

Lemma clamp_range (x : float) :
  let a := Math_max 0%float (Math_min 1%float x) in
  a = nan \/ ((0 <=? a)%float = true /\ (a <=? 1)%float = true).
Proof.
  intros a. subst a.
  assert (Hmin : Math_min 1 x
                 = if is_nan x then nan else if (x <? 1)%float then x else 1%float).
  { unfold Math_min. change (is_nan 1) with false. change (is_pos_zero 1) with false.
    now rewrite andb_false_r, orb_false_r. }
  assert (Hmax : forall m, Math_max 0 m
                           = if is_nan m then nan else if (0 <? m)%float then m else 0%float).
  { intros m. unfold Math_max. change (is_nan 0) with false.
    change (is_neg_zero 0) with false. now rewrite andb_false_r, orb_false_r. }
  rewrite Hmin, Hmax.
  destruct (is_nan x) eqn:Hx; [left; reflexivity|].
  destruct (x <? 1)%float eqn:H1.
  - rewrite Hx. destruct (0 <? x)%float eqn:H0; right.
    + split; now apply FloatOrder.lt_le.
    + split; reflexivity.
  - right. split; reflexivity.
Qed.

(** X21 (opacity).  The calls for a resolved layer end with the reset of
    [globalAlpha] to 1.  They begin with an assignment of [globalAlpha] exactly
    when the resolved props have an [opacity] other than [undefined], and
    the value assigned is then [NaN] or lies between 0 and 1. *)
Theorem opacity_is_clamped_and_reset ty (bag : gmap string value) :
  exists before,
    draw_resolved ty bag
    = (before ++ drawLayer ty bag ++ [set_globalAlpha 1%float])%list
    /\ (get bag "opacity" = VUndefined -> before = [])
    /\ (get bag "opacity" <> VUndefined ->
        exists a,
          before = [set_globalAlpha a]
          /\ (a = nan \/ ((0 <=? a)%float = true /\ (a <=? 1)%float = true))).
Proof.
  unfold Renderer.draw_resolved.
  destruct (get bag "opacity") as [| |b|n|s] eqn:E;
    eexists; (split; [reflexivity|]); split; intros H; try discriminate;
    try reflexivity; try (now destruct H);
    eexists; (split; [reflexivity|]); apply clamp_range.
Qed.

End RendererFacts.

(** *** The statements above on sample inputs *)

Lemma deltas_are_truthy_witness :
  Server.truthy (Some (Server.JString "Plants")) = true.
Proof.
  apply (deltas_are_truthy Demo.parse Ascii.is_space Demo.chunks).
  vm_compute. left. reflexivity.
Defined.

Lemma subscriber_sees_events_in_order_witness :
  exists r w' a c',
    Server.post_questions Sample.uuid Sample.clock Sample.iso Sample.stringify
      Sample.trim Sample.show Sample.photosynthesis Demo.streamed Sample.quiet
    = (Server.Ok r, w')
    /\ Server.answers w' = (Server.answers Sample.quiet ++ [a])%list
    /\ Server.clients w' !! 1 = Some c'
    /\ Server.client_id c' = "c2"
    /\ Server.written (Server.res c')
       = (Server.written Sample.silent
          ++ flat_map (Routes.lines Sample.stringify)
               (Routes.opening Sample.uuid Sample.clock Sample.iso Sample.trim
                  Sample.photosynthesis "What is photosynthesis?" Demo.streamed
                  Sample.quiet
                ++ [Server.answer_created a]))%list.
Proof.
  apply (subscriber_sees_events_in_order Sample.uuid Sample.clock Sample.iso
           Sample.stringify Sample.trim Sample.show Sample.photosynthesis
           "What is photosynthesis?" Demo.streamed Sample.quiet 1
           {| Server.client_id := "c2"; Server.res := Sample.silent |}).
  - exact sample_accepted.
  - reflexivity.
  - intros n. reflexivity.
Defined.



Lemma returned_answer_can_be_fetched_witness :
  let run :=
    Server.post_questions Sample.uuid Sample.clock Sample.iso Sample.stringify
      Sample.trim Sample.show Sample.photosynthesis Sample.upstream_down Sample.quiet in
  exists a, Routes.get_answer "a_2" (snd run) = Routes.AnswerFound a
            /\ Server.answer_id a = "a_2".
Proof.
  intros run.
  apply (returned_answer_can_be_fetched Sample.uuid Sample.clock Sample.iso
           Sample.stringify Sample.trim Sample.show Sample.photosynthesis
           Sample.upstream_down Sample.quiet true "q_3" "a_2" (snd run)).
  vm_compute. reflexivity.
Defined.

Lemma history_lookup_by_question_witness :
  exists r w',
    Server.post_questions Sample.uuid Sample.clock Sample.iso Sample.stringify
      Sample.trim Sample.show Sample.photosynthesis Sample.upstream_down Sample.quiet
    = (Server.Ok r, w')
    /\ Routes.get_answer "a_1" w' = Routes.AnswerNotFound.
Proof.
  destruct (history_lookup_by_question Sample.uuid Sample.clock Sample.iso
              Sample.stringify Sample.trim Sample.show Sample.photosynthesis
              "What is photosynthesis?" Sample.upstream_down Sample.quiet
              sample_accepted)
    as (r & w' & Hrun & _ & Hfail).
  - intros a [].
  - exists r, w'. split; [exact Hrun|]. apply Hfail; [reflexivity|].
    vm_compute. discriminate.
Defined.

Lemma double_unsubscribe_is_a_no_op_witness :
  Server.bind (Routes.unsubscribe "c1") (fun _ => Routes.unsubscribe "c1") Sample.quiet
  = Routes.unsubscribe "c1" Sample.quiet.
Proof.
  apply (double_unsubscribe_is_a_no_op "c1" Sample.quiet).
  apply NoDup_cons. split.
  - intros H. apply list_elem_of_In in H. destruct H as [H | []]. discriminate.
  - apply NoDup_singleton.
Defined.

Lemma subscribe_then_unsubscribe_witness :
  let run :=
    Routes.subscribe Sample.uuid Sample.clock Demo.stringify_connected
      Sample.silent Sample.quiet in
  Server.clients (snd (Routes.unsubscribe (Sample.uuid 0) (snd run)))
  = Server.clients Sample.quiet.
Proof.
  intros run.
  apply (subscribe_then_unsubscribe Sample.uuid Sample.clock Demo.stringify_connected
           Sample.silent Sample.quiet (Sample.uuid 0) (snd run)).
  - vm_compute. reflexivity.
  - intros c [<- | [<- | []]]; vm_compute; discriminate.
Defined.

Lemma missing_duration_gives_static_frame_witness :
  Player.drawVisualization Scenes.pow_sample Scenes.cos_sample Scenes.sin_sample
    Demo.undated 0.5%float
  = [("circle", {[ "x" := Player.VNum 40%float; "fill" := Player.VStr "gold" ]})].
Proof.
  exact (missing_duration_gives_static_frame Scenes.pow_sample Scenes.cos_sample
           Scenes.sin_sample Demo.undated 0.5%float
           (default [] (Player.layers Demo.undated)) eq_refl eq_refl).
Defined.

Lemma untargeted_properties_pass_through_witness :
  exists bag,
    Player.drawVisualization Scenes.pow_sample Scenes.cos_sample Scenes.sin_sample
      (Scenes.single 5000%float "circle"
         {[ "x" := Player.VNum 40%float; "fill" := Player.VStr "gold" ]}
         (Scenes.ramp "x"))
      0.5%float !! 0
    = Some ("circle", bag)
    /\ bag !! "fill" = Some (Player.VStr "gold").
Proof.
  destruct (untargeted_properties_pass_through Scenes.pow_sample Scenes.cos_sample
              Scenes.sin_sample
              (Scenes.single 5000%float "circle"
                 {[ "x" := Player.VNum 40%float; "fill" := Player.VStr "gold" ]}
                 (Scenes.ramp "x"))
              0.5%float _ 0 _ "fill" eq_refl eq_refl)
    as (bag & Hbag & Hk).
  - intros anims [= <-]. reflexivity.
  - exists bag. split; [exact Hbag|]. rewrite Hk. reflexivity.
Defined.

Lemma before_start_witness :
  Player.apply_animation Scenes.pow_sample Scenes.cos_sample Scenes.sin_sample
    (Player.Number 5000%float) 2000%float {[ "x" := Player.VNum 40%float ]} Demo.inverted
    !! "x"
  = Some (Player.VNum 100%float).
Proof.
  apply (proj2 (before_start Scenes.pow_sample Scenes.cos_sample Scenes.sin_sample
                  (Player.Number 5000%float) 2000%float
                  {[ "x" := Player.VNum 40%float ]} Demo.inverted eq_refl)).
  - reflexivity.
  - discriminate.
Defined.

Lemma questions_are_never_duplicated_witness :
  let s :=
    {| Client.questions := []; Client.answers := ∅; Client.selectedAnswer := None;
       Client.isPlaying := false; Client.isGenerating := false;
       Client.hasPartial := false |} in
  let q :=
    Routes.stored_question Sample.uuid Sample.clock Sample.iso Sample.trim
      Sample.photosynthesis "What is photosynthesis?" Sample.quiet in
  NoDup (map Server.question_id
           (Client.questions
              (Client.handle_all s
                 [Server.question_created q; Server.question_created q]))).
Proof.
  intros s q.
  apply (proj1 (questions_are_never_duplicated s
                  [Server.question_created q; Server.question_created q]
                  NoDup_nil_2)).
Defined.

Lemma arc_radius_is_not_negative_witness :
  (abs (-7) <? 0)%float = false
  /\ 0%float = 0%float /\ (2 * Num.PI)%float = (2 * Num.PI)%float.
Proof.
  apply (arc_radius_is_not_negative Demo.to_number_sample Demo.to_string_sample
           Demo.atan2_sample Scenes.cos_sample Scenes.sin_sample "circle"
           {[ "r" := Player.VNum (-7)%float ]}
           (Player.VNum 0%float) (Player.VNum 0%float)).
  right. right. left. reflexivity.
Defined.
